(** * store-scraper: the catalog normalisation pipeline

    A shallow embedding of [scripts/catalog/normalize.py],
    [scripts/catalog/dedupe.py], [scripts/catalog/models.py] and of the
    Nintendo adapter [scripts/catalog/adapters/nintendo.py], followed by the
    properties the specification states about them.

    Conventions.
    - A Python [str] is a list of Unicode code points ([Z]); [u "..."] reads a
      literal of this file (UTF-8) into code points.
    - A Python [float] is an IEEE-754 binary64 value, as [spec_float] with
      precision 53 and maximal exponent 1024.
    - A JSON document as [json.loads] returns it is a [pyval].
    - What the code obtains from the Python runtime's Unicode database, from
      [repr] and from pydantic's URL type is a field of [PyRuntime]; the
      general theorems hold for every runtime. *)

From Stdlib Require Import ZArith Ascii String List Bool Lia.
From Stdlib Require Import Floats.SpecFloat.
From stdpp Require Import base list gmap.
Import ListNotations.

Local Open Scope Z_scope.

(** ** Strings *)

Module Str.

(** A code point, and a [str]. *)
Abbreviation cp := Z (only parsing).
Abbreviation str := (list Z) (only parsing).

(** The bytes of a literal of this file. *)
Fixpoint bytes_of (s : string) : list Z :=
  match s with
  | EmptyString => []
  | String a r => Z.of_N (N_of_ascii a) :: bytes_of r
  end.

(** UTF-8 decoding of well-formed literals. *)
Fixpoint utf8_decode (bs : list Z) : str :=
  match bs with
  | [] => []
  | b :: r =>
      if b <? 128 then b :: utf8_decode r
      else if b <? 224 then
        match r with
        | b1 :: r1 => ((b - 192) * 64 + (b1 - 128)) :: utf8_decode r1
        | _ => []
        end
      else if b <? 240 then
        match r with
        | b1 :: b2 :: r2 =>
            ((b - 224) * 4096 + (b1 - 128) * 64 + (b2 - 128)) :: utf8_decode r2
        | _ => []
        end
      else
        match r with
        | b1 :: b2 :: b3 :: r3 =>
            ((b - 240) * 262144 + (b1 - 128) * 4096 + (b2 - 128) * 64 + (b3 - 128))
              :: utf8_decode r3
        | _ => []
        end
  end.

Definition u (s : string) : str := utf8_decode (bytes_of s).

Definition str_eqb (a b : str) : bool := bool_decide (a = b).

Definition null (s : str) : bool :=
  match s with [] => true | _ => false end.

Definition is_ascii (c : cp) : bool := (0 <=? c) && (c <? 128).
Definition all_ascii (s : str) : bool := forallb is_ascii s.

Definition in_range (lo hi c : cp) : bool := (lo <=? c) && (c <=? hi).

Definition is_ascii_upper : cp -> bool := in_range 65 90.
Definition is_ascii_lower : cp -> bool := in_range 97 122.
Definition is_ascii_digit : cp -> bool := in_range 48 57.

Definition ascii_lower (c : cp) : cp := if is_ascii_upper c then c + 32 else c.
Definition ascii_upper (c : cp) : cp := if is_ascii_lower c then c - 32 else c.

(** [Py_UNICODE_ISSPACE]: the code points [str.strip()], [str.isspace()]
    and the regular expression class [\s] treat as whitespace. *)
Definition is_space (c : cp) : bool :=
  in_range 9 13 c || in_range 28 32 c
  || (c =? 133) || (c =? 160) || (c =? 5760)
  || in_range 8192 8202 c || (c =? 8232) || (c =? 8233)
  || (c =? 8239) || (c =? 8287) || (c =? 12288).

(** [s.lstrip], [s.rstrip] and [s.strip] for a class of code points. *)
Fixpoint lstrip_by (p : cp -> bool) (s : str) : str :=
  match s with
  | [] => []
  | c :: r => if p c then lstrip_by p r else s
  end.

Fixpoint rstrip_by (p : cp -> bool) (s : str) : str :=
  match s with
  | [] => []
  | c :: r =>
      match rstrip_by p r with
      | [] => if p c then [] else [c]
      | r' => c :: r'
      end
  end.

Definition strip_by (p : cp -> bool) (s : str) : str :=
  rstrip_by p (lstrip_by p s).

(** [s.strip()] *)
Definition strip : str -> str := strip_by is_space.

(** [s.strip(chars)] *)
Definition mem (chars : str) (c : cp) : bool := existsb (Z.eqb c) chars.
Definition strip_chars (chars : str) : str -> str := strip_by (mem chars).

(** [a <= b] on [str]: lexicographic on code points. *)
Fixpoint le (a b : str) : bool :=
  match a, b with
  | [], _ => true
  | _ :: _, [] => false
  | x :: a', y :: b' => (x <? y) || ((x =? y) && le a' b')
  end.

(** [needle in s] *)
Fixpoint is_prefix (p s : str) : bool :=
  match p, s with
  | [], _ => true
  | _ :: _, [] => false
  | x :: p', y :: s' => (x =? y) && is_prefix p' s'
  end.

Fixpoint contains (needle s : str) : bool :=
  is_prefix needle s ||
  match s with
  | [] => false
  | _ :: r => contains needle r
  end.

(** [s.replace(a, b)] for single code points. *)
Definition replace1 (a b : cp) (s : str) : str :=
  map (fun c => if c =? a then b else c) s.

(** Decimal digits of a natural number, as [str(n)] prints them. *)
Fixpoint digits_fuel (fuel : nat) (n : Z) (acc : str) : str :=
  match fuel with
  | O => acc
  | S f =>
      let acc' := (48 + n mod 10) :: acc in
      if n <? 10 then acc' else digits_fuel f (n / 10) acc'
  end.

Definition digits (n : Z) : str :=
  digits_fuel (S (Z.to_nat (Z.log2 n))) n [].

Definition of_int (n : Z) : str :=
  if n <? 0 then 45 :: digits (- n) else digits n.

End Str.

Export Str.

(** ** Python values, exceptions and the runtime *)

(** Binary64 floats. *)
Module Float.

Definition float := spec_float.
Definition prec : Z := 53.
Definition emax : Z := 1024.

(** The float nearest to [(-1)^neg * n * 10^e10] (round half to even),
    the value of a decimal literal or of [float("...")]. *)
Definition of_decimal (neg : bool) (n e10 : Z) : float :=
  match n with
  | Zpos p =>
      if 0 <=? e10 then
        match n * 10 ^ e10 with
        | Zpos q => binary_round prec emax neg q 0
        | _ => S754_zero neg
        end
      else
        match 10 ^ (- e10) with
        | Zpos d => SFdiv prec emax (S754_finite neg p 0) (S754_finite false d 0)
        | _ => S754_zero neg
        end
  | _ => S754_zero neg
  end.

(** [float(n)] for a Python [int]: [None] stands for [OverflowError]. *)
Definition of_int (n : Z) : option float :=
  match binary_normalize prec emax n 0 false with
  | S754_infinity _ => None
  | f => Some f
  end.

(** [x * 100] rounded half to even to an integer, for a finite non-zero
    float of mantissa [m] and exponent [e]. *)
Definition hundredths (m : positive) (e : Z) : Z :=
  let num := Zpos m * 100 in
  if 0 <=? e then num * 2 ^ e
  else
    let den := 2 ^ (- e) in
    let q := num / den in
    let r := num mod den in
    if (den <? 2 * r) || ((2 * r =? den) && Z.odd q) then q + 1 else q.

Definition sign_str (neg : bool) : str := if neg then [45] else [].

(** [format(x, "0.2f")] *)
Definition format_2f (x : float) : str :=
  match x with
  | S754_nan => u "nan"
  | S754_infinity s => sign_str s ++ u "inf"
  | S754_zero s => sign_str s ++ u "0.00"
  | S754_finite s m e =>
      let n := hundredths m e in
      sign_str s ++ Str.digits (n / 100)
        ++ [46; 48 + (n mod 100) / 10; 48 + (n mod 100) mod 10]
  end.

(** *** [float(s)] on an ASCII [str] *)

(** [Py_ISSPACE] *)
Definition is_c_space (c : cp) : bool := in_range 9 13 c || (c =? 32).

(** Underscores may only stand between two digits; they are removed. *)
Fixpoint drop_underscores (prev : cp) (s : str) : option str :=
  match s with
  | [] => if prev =? 95 then None else Some []
  | c :: r =>
      if c =? 0 then None
      else if c =? 95 then
        if is_ascii_digit prev then drop_underscores c r else None
      else if (prev =? 95) && negb (is_ascii_digit c) then None
      else option_map (cons c) (drop_underscores c r)
  end.

(** A run of digits: value accumulated onto [acc], number of digits, rest. *)
Fixpoint take_digits (s : str) (acc cnt : Z) : Z * Z * str :=
  match s with
  | c :: r =>
      if is_ascii_digit c then take_digits r (acc * 10 + (c - 48)) (cnt + 1)
      else (acc, cnt, s)
  | [] => (acc, cnt, s)
  end.

Definition take_sign (s : str) : bool * str :=
  match s with
  | 45 :: r => (true, r)
  | 43 :: r => (false, r)
  | _ => (false, s)
  end.

(** [[eE][+-]?digits] up to the end of the string, or nothing at all. *)
Definition parse_exponent (s : str) : option Z :=
  match s with
  | [] => Some 0
  | c :: r =>
      if (c =? 101) || (c =? 69) then
        let '(neg, r1) := take_sign r in
        match take_digits r1 0 0 with
        | (v, cnt, []) =>
            if 0 <? cnt then Some (if neg then - v else v) else None
        | _ => None
        end
      else None
  end.

Definition parse_number (s : str) : option float :=
  let '(neg, r) := take_sign s in
  let lowered := map ascii_lower r in
  if bool_decide (lowered = u "inf") || bool_decide (lowered = u "infinity")
  then Some (S754_infinity neg)
  else if bool_decide (lowered = u "nan") then Some S754_nan
  else
    let '(ip, ni, r1) := take_digits r 0 0 in
    let '(n, nf, r2) :=
      match r1 with
      | 46 :: r1' => take_digits r1' ip 0
      | _ => (ip, 0, r1)
      end in
    if ni + nf =? 0 then None
    else
      match parse_exponent r2 with
      | Some e => Some (of_decimal neg n (e - nf))
      | None => None
      end.

(** [None] stands for [ValueError]. *)
Definition of_ascii_str (s : str) : option float :=
  match drop_underscores 0 s with
  | Some s1 =>
      match strip_by is_c_space s1 with
      | [] => None
      | s2 => parse_number s2
      end
  | None => None
  end.

End Float.

(** What [json.loads] returns, and more generally the values the adapter
    handles: [None], [bool], [int], [float], [str], [list], [dict] (a [dict]
    as its items in insertion order). *)
#[warnings="-register-all"]
Inductive pyval : Type :=
| PNone
| PBool (b : bool)
| PInt (n : Z)
| PFloat (x : Float.float)
| PStr (s : str)
| PList (l : list pyval)
| PDict (d : list (str * pyval)).

(** The exceptions that can leave the modelled code. *)
Inductive exn : Type :=
| AttributeError
| TypeError
| ValidationError
| FetchError.

Inductive Result (A : Type) : Type :=
| Ok (a : A)
| Raise (e : exn).
Arguments Ok {A} a.
Arguments Raise {A} e.

Global Instance Result_ret : MRet Result := fun _ a => Ok a.
Global Instance Result_bind : MBind Result := fun _ _ f m =>
  match m with
  | Ok a => f a
  | Raise e => Raise e
  end.

(** The parts of the Python runtime and of pydantic the code relies on and
    this file does not define. *)
Record PyRuntime : Type := {
  (** [Py_UNICODE_ISALNUM] on a code point above ASCII (for [\b] and [\w]) *)
  uni_isalnum : cp -> bool;
  (** [s.lower()] and [s.upper()] for a [str] that is not pure ASCII *)
  uni_lower : str -> str;
  uni_upper : str -> str;
  (** [float(s)] for a [str] that is not pure ASCII; [None]: [ValueError] *)
  uni_float : str -> option Float.float;
  (** [str(v)] for a [float], a [list] or a [dict] *)
  py_repr : pyval -> str;
  (** pydantic's [HttpUrl]: the validated URL, [None]: [ValidationError] *)
  http_url : str -> option str
}.

(** ** Regular expressions, as [re.sub] applies the patterns of the program *)

Module Re.

(** A compiled pattern: at a position of the subject, given the code point
    before it (if any) and the subject from there on, the length of the match
    found there. No pattern of this program matches the empty string. *)
Definition pattern : Type := option cp -> str -> option nat.

(** [pattern.sub(repl, s)]: the subject is scanned from the left; where the
    pattern matches, the match is replaced and the scan resumes after it. *)
Fixpoint sub_from (p : pattern) (repl : str) (fuel : nat)
    (prev : option cp) (s : str) : str :=
  match fuel with
  | O => s
  | S f =>
      match s with
      | [] => []
      | c :: r =>
          match p prev s with
          | Some (S n) => repl ++ sub_from p repl f (s !! n) (drop (S n) s)
          | _ => c :: sub_from p repl f (Some c) r
          end
      end
  end.

Definition sub (p : pattern) (repl : str) (s : str) : str :=
  sub_from p repl (length s) None s.

(** [[...]]: one code point of a class. *)
Definition one_of (cls : cp -> bool) : pattern := fun _ s =>
  match s with
  | c :: _ => if cls c then Some 1%nat else None
  | [] => None
  end.

Fixpoint count_while (cls : cp -> bool) (s : str) : nat :=
  match s with
  | c :: r => if cls c then S (count_while cls r) else O
  | [] => O
  end.

(** [[...]{min,}] (greedy): the longest run of the class, of [min] code
    points at least. *)
Definition run_of (cls : cp -> bool) (min : nat) : pattern := fun _ s =>
  let n := count_while cls s in
  if (min <=? n)%nat then Some n else None.

(** A letter of a pattern compiled with [re.I] against a subject code point:
    the subject is lower-cased by its simple case mapping and compared with
    the letter and the equivalents the compiler lists for it (dotless i for
    i, long s for s). *)
Definition ci_eq (pc c : cp) : bool :=
  (c =? pc)
  || (is_ascii_lower pc && (c =? pc - 32))
  || ((pc =? 105) && ((c =? 304) || (c =? 305)))
  || ((pc =? 115) && (c =? 383))
  || ((pc =? 107) && (c =? 8490)).

Fixpoint ci_prefix (lit s : str) : bool :=
  match lit, s with
  | [], _ => true
  | _ :: _, [] => false
  | x :: lit', y :: s' => ci_eq x y && ci_prefix lit' s'
  end.

(** [\b]: exactly one of the two neighbours is a word character. *)
Definition boundary (is_word : cp -> bool) (a b : option cp) : bool :=
  xorb (from_option is_word false a) (from_option is_word false b).

(** [\b(w1|w2|...)\b] with [re.I]: the first alternative, in the order
    written, that matches between two word boundaries. *)
Fixpoint words (is_word : cp -> bool) (alts : list str) : pattern :=
  fun prev s =>
    match alts with
    | [] => None
    | w :: alts' =>
        let n := length w in
        if ci_prefix w s
           && boundary is_word prev (head s)
           && boundary is_word (s !! pred n) (s !! n)
        then Some n
        else words is_word alts' prev s
    end.

End Re.

(** ** The runtime-dependent [str] methods *)

Section StrMethods.

Variable rt : PyRuntime.

(** [s.lower()], [s.upper()] *)
Definition lower (s : str) : str :=
  if all_ascii s then map ascii_lower s else uni_lower rt s.

Definition upper (s : str) : str :=
  if all_ascii s then map ascii_upper s else uni_upper rt s.

(** [\w] *)
Definition is_word (c : cp) : bool :=
  if is_ascii c
  then is_ascii_lower c || is_ascii_upper c || is_ascii_digit c || (c =? 95)
  else uni_isalnum rt c.

(** [float(s)] *)
Definition float_of_str (s : str) : option Float.float :=
  if all_ascii s then Float.of_ascii_str s else uni_float rt s.

End StrMethods.

(** ** catalog/normalize.py *)

Module normalize.
Section normalize.

Variable rt : PyRuntime.

(** [re.compile(r"[™®©]", re.U)] *)
Definition _MARK_RX : Re.pattern :=
  Re.one_of (fun c => (c =? 8482) || (c =? 174) || (c =? 169)).

(** [re.compile(r"\b(deluxe|...|director'?s cut|edition)\b", re.I)]; the
    optional apostrophe is tried first (the quantifier is greedy). *)
Definition _EDITION_RX : Re.pattern :=
  Re.words (is_word rt)
    [u "deluxe"; u "definitive"; u "gold"; u "ultimate"; u "goty";
     u "complete"; u "remastered"; u "hd"; u "bundle"; u "collection";
     u "director's cut"; u "directors cut"; u "edition"].

(** [r"\s{2,}"] *)
Definition _SPACES_RX : Re.pattern := Re.run_of is_space 2.

Definition clean_title (name : str) : str :=
  let t := strip (Re.sub _MARK_RX [] name) in
  let t := Re.sub _SPACES_RX (u " ") t in
  t.

Definition strip_edition_noise (name : str) : str :=
  let t := clean_title name in
  let t := Re.sub _EDITION_RX [] t in
  let t := strip_chars (u " -–—") (Re.sub _SPACES_RX (u " ") t) in
  if null t then clean_title name else t.

(** [amount] is [None] or a [float]; [currency] is whatever the caller
    read from the source item. *)
Definition price_to_string (amount : option Float.float) (currency : pyval)
    (flags : option str) : Result str :=
  if negb (null (default [] flags)) then Ok (default [] flags)
  else
    match amount, currency with
    | None, _ => Ok (u "Unavailable")
    | Some _, PNone => Ok (u "Unavailable")
    | Some a, PStr c =>
        let symbol :=
          if bool_decide (upper rt c = u "USD") then u "$"
          else upper rt c ++ u " " in
        Ok (symbol ++ Float.format_2f a)
    | Some _, _ => Raise AttributeError
    end.

Definition letter_bucket (name : str) : str :=
  let ch := lower rt (take 1 (strip name)) in
  if Str.le (u "a") ch && Str.le ch (u "z") then ch else u "_".

End normalize.
End normalize.

(** ** catalog/models.py *)

Module models.

(** [Rating] *)
Definition Rating : list str :=
  [u "everyone"; u "everyone 10+"; u "rating pending"; u "teen";
   u "mature 17+"; u "none"].

Definition stores : list str := [u "steam"; u "psn"; u "xbox"; u "nintendo"].

Definition is_literal (allowed : list str) (v : str) : bool :=
  existsb (str_eqb v) allowed.

Section validators.

Variable rt : PyRuntime.

(** The loop of [_platforms_clean], from the state [(seen, out)]. *)
Fixpoint platforms_loop (v : list str) (seen : gset str) (out : list str)
    : list str :=
  match v with
  | [] => out
  | p :: v' =>
      let p := strip p in
      if negb (null p) && bool_decide (lower rt p ∉ seen)
      then platforms_loop v' ({[lower rt p]} ∪ seen) (out ++ [p])
      else platforms_loop v' seen out
  end.

End validators.

(** [class LetterItem(BaseModel)]; pydantic has checked the type of every
    field before the validators below run. *)
Module LetterItem.

Record t : Type := mk {
  name : str;
  type : option str;
  price : str;
  image : str;
  href : str;
  uuid : option str;
  platforms : list str;
  rating : option str
}.

Section LetterItem.

Variable rt : PyRuntime.

Definition _price_nonempty (v : str) : str :=
  let v := strip v in
  if null v then u "Unavailable" else v.

Definition _platforms_clean (v : list str) : list str :=
  platforms_loop rt v ∅ [].

Definition _rating_lower (v : option str) : option str :=
  lower rt <$> v.

(** [LetterItem(name=..., ...)] *)
Definition create (name : str) (type : option str) (price image href : str)
    (uuid : option str) (platforms : list str) (rating : option str)
    : Result t :=
  match http_url rt image, http_url rt href with
  | Some image', Some href' =>
      if from_option (is_literal Rating) true rating then
        Ok {| name := name; type := type;
              price := _price_nonempty price;
              image := image'; href := href'; uuid := uuid;
              platforms := _platforms_clean platforms;
              rating := _rating_lower rating |}
      else Raise ValidationError
  | _, _ => Raise ValidationError
  end.

End LetterItem.

End LetterItem.

(** [class GameRecord(BaseModel)] *)
Module GameRecord.

Record t : Type := mk {
  store : str;
  name : str;
  price : str;
  image : str;
  href : str;
  uuid : option str;
  platforms : list str;
  rating : option str;
  type : option str;
  extra : list (str * pyval)
}.

Section GameRecord.

Variable rt : PyRuntime.

Definition _price_nonempty (v : str) : str :=
  let v := strip v in
  if null v then u "Unavailable" else v.

Definition _platforms_clean (v : list str) : list str :=
  platforms_loop rt v ∅ [].

Definition _rating_lower (v : option str) : option str :=
  lower rt <$> v.

(** [GameRecord(store=..., ...)]; [extra] takes its default. *)
Definition create (store name price image href : str)
    (uuid : option str) (platforms : list str) (rating : option str)
    (type : option str) : Result t :=
  if is_literal stores store then
    match http_url rt image, http_url rt href with
    | Some image', Some href' =>
        if from_option (is_literal Rating) true rating then
          Ok {| store := store; name := name;
                price := _price_nonempty price;
                image := image'; href := href'; uuid := uuid;
                platforms := _platforms_clean platforms;
                rating := _rating_lower rating;
                type := type; extra := [] |}
        else Raise ValidationError
    | _, _ => Raise ValidationError
    end
  else Raise ValidationError.

End GameRecord.

End GameRecord.

End models.

Export models.

(** ** catalog/dedupe.py *)

Module dedupe.
Section dedupe.

Variable rt : PyRuntime.

(** [r"[^a-z0-9]+"] *)
Definition _NON_KEY_RX : Re.pattern :=
  Re.run_of (fun c => negb (is_ascii_lower c || is_ascii_digit c)) 1.

Definition canonical_key (name : str) : str :=
  let base := normalize.strip_edition_noise rt name in
  Re.sub _NON_KEY_RX [] (lower rt base).

(** [buckets.setdefault(k, []).append(r)] for every record, in order. *)
Definition cluster (records : list GameRecord.t)
    : gmap str (list GameRecord.t) :=
  foldl
    (fun buckets r =>
       let k := canonical_key (GameRecord.name r) in
       <[k := default [] (buckets !! k) ++ [r]]> buckets)
    ∅ records.

End dedupe.
End dedupe.

(** ** Operations on Python values *)

Module Py.

(** [bool(v)] *)
Definition truthy (v : pyval) : bool :=
  match v with
  | PNone => false
  | PBool b => b
  | PInt n => negb (n =? 0)
  | PFloat (S754_zero _) => false
  | PFloat _ => true
  | PStr s => negb (null s)
  | PList l => match l with [] => false | _ => true end
  | PDict d => match d with [] => false | _ => true end
  end.

(** [a or b] *)
Definition or_ (a b : pyval) : pyval := if truthy a then a else b.

(** [d.get(k)] and [k in d] on the items of a [dict] (keys are distinct). *)
Fixpoint dict_get (d : list (str * pyval)) (k : str) : pyval :=
  match d with
  | [] => PNone
  | (k', v) :: d' => if str_eqb k' k then v else dict_get d' k
  end.

Definition dict_has (d : list (str * pyval)) (k : str) : bool :=
  existsb (fun kv => str_eqb (fst kv) k) d.

(** The receiver of [.get]: only a [dict] has the method. *)
Definition as_dict (v : pyval) : Result (list (str * pyval)) :=
  match v with
  | PDict d => Ok d
  | _ => Raise AttributeError
  end.

(** [for x in v]: only [list], [str] and [dict] are iterable. *)
Definition iterate (v : pyval) : Result (list pyval) :=
  match v with
  | PList l => Ok l
  | PStr s => Ok (map (fun c => PStr [c]) s)
  | PDict d => Ok (map (fun kv => PStr (fst kv)) d)
  | _ => Raise TypeError
  end.

Section Py.

Variable rt : PyRuntime.

(** [str(v)], also what an f-string prints for [v]. *)
Definition str_ (v : pyval) : str :=
  match v with
  | PStr s => s
  | PInt n => Str.of_int n
  | PBool true => u "True"
  | PBool false => u "False"
  | PNone => u "None"
  | _ => py_repr rt v
  end.

(** [float(v)]; [None] stands for the exception raised. *)
Definition float_ (v : pyval) : option Float.float :=
  match v with
  | PFloat x => Some x
  | PInt n => Float.of_int n
  | PBool b => Some (if b then Float.of_decimal false 1 0 else S754_zero false)
  | PStr s => float_of_str rt s
  | _ => None
  end.

End Py.

End Py.

Infix "|||" := Py.or_ (at level 50, left associativity).

(** ** Generators *)

(** What consuming a generator to its end observes: the values it yielded and
    the exception that ended it, if one did. *)
Definition Gen (A : Type) : Type := (list A * option exn)%type.

Definition gen_of {A} (r : Result (list A)) : Gen A :=
  match r with
  | Ok l => (l, None)
  | Raise e => ([], Some e)
  end.

(** One generator after the other. *)
Definition gen_seq {A} (g1 g2 : Gen A) : Gen A :=
  match g1 with
  | (l1, Some e) => (l1, Some e)
  | (l1, None) => (l1 ++ fst g2, snd g2)
  end.

(** ** catalog/adapters/nintendo.py *)

Module nintendo.

Import Py.

(** A fetched listing page, as the adapter reads it: through
    [_NEXT_RE.search(html)] and [_JSONLD_RE.finditer(html)], and through
    [json.loads] of each script body found. [None] for a body on which
    [json.loads] raises. *)
Record page : Type := {
  (** the first [__NEXT_DATA__] script, if the page has one *)
  next_data : option (option pyval);
  (** the [application/ld+json] scripts, in page order *)
  ld_json : list (option pyval)
}.

(** How a run of [_iter_search_api] ended. *)
Inductive ending : Type :=
| Returned
| Raised (e : exn)
| Running.

(** A run of [_iter_search_api]: the page indices requested, in order, the
    records yielded, and how the run ended ([Running]: out of fuel). *)
Record run : Type := {
  fetched : list Z;
  yielded : list GameRecord.t;
  ended : ending
}.

Section nintendo.

Variable rt : PyRuntime.

(** [self.config.locale] *)
Variable locale : str.

Definition PLACEHOLDER : str :=
  u "https://www.nintendo.com/etc.clientlibs/ncom/clientlibs/clientlib-ncom/resources/img/nintendo_red.svg".

(** *** Strategy A *)

Definition container_keys : list str := [u "products"; u "items"; u "results"].

(** [for k in (...): v = js.get(k); if isinstance(v, list) and v: return v] *)
Fixpoint first_items (d : list (str * pyval)) (ks : list str)
    : option (list pyval) :=
  match ks with
  | [] => None
  | k :: ks' =>
      match dict_get d k with
      | PList (x :: l) => Some (x :: l)
      | _ => first_items d ks'
      end
  end.

Definition _extract_items_from_api (js : pyval) : list pyval :=
  match js with
  | PDict d =>
      match first_items d container_keys with
      | Some v => v
      | None =>
          match dict_get d (u "data") with
          | PDict data => default [] (first_items data container_keys)
          | _ => []
          end
      end
  | _ => []
  end.

(** The argument [name] of [clean_title]: [name or ""] must be a [str]
    for [_MARK_RX.sub]. *)
Definition title_arg (v : pyval) : Result str :=
  match v with
  | PStr s => Ok s
  | _ => if truthy v then Raise TypeError else Ok []
  end.

(** The loop over [imgs] that looks for box art. *)
Fixpoint pick_box_art (imgs : list pyval) (preferred : pyval) : Result pyval :=
  match imgs with
  | [] => Ok preferred
  | PDict img :: imgs' =>
      match dict_get img (u "type") ||| dict_get img (u "purpose") ||| PStr [] with
      | PStr k =>
          let kind := lower rt k in
          if contains (u "box") kind || contains (u "pack") kind
             || contains (u "cover") kind
          then
            let preferred := dict_get img (u "url") in
            if truthy preferred then Ok preferred
            else pick_box_art imgs' preferred
          else pick_box_art imgs' preferred
      | _ => Raise AttributeError
      end
  | _ :: imgs' => pick_box_art imgs' preferred
  end.

Definition api_image (it : list (str * pyval)) : Result str :=
  let image :=
    dict_get it (u "image") ||| dict_get it (u "imageUrl")
      ||| dict_get it (u "boxArt") ||| dict_get it (u "heroBanner") in
  image ←
    (if truthy image then Ok image
     else
       match dict_get it (u "images") ||| dict_get it (u "keyImages") ||| PList [] with
       | PList (first :: rest) =>
           preferred ← pick_box_art (first :: rest) PNone;
           Ok (preferred |||
                 match first with
                 | PDict f => dict_get f (u "url")
                 | _ => first
                 end)
       | _ => Ok image
       end);
  Ok (if truthy image then str_ rt image else PLACEHOLDER).

Definition api_href (it : list (str * pyval)) : str :=
  let href :=
    dict_get it (u "productUrl") ||| dict_get it (u "url")
      ||| dict_get it (u "webUrl") in
  if truthy href then str_ rt href
  else
    let slug := dict_get it (u "slug") ||| dict_get it (u "seoName") in
    let nsuid := dict_get it (u "nsuid") ||| dict_get it (u "id") in
    let loc := lower rt (replace1 95 45 locale) in
    if truthy slug then
      u "https://www.nintendo.com/" ++ loc ++ u "/store/products/"
        ++ str_ rt slug ++ u "/"
    else if truthy nsuid then
      u "https://www.nintendo.com/" ++ loc ++ u "/store/products/"
        ++ str_ rt nsuid ++ u "/"
    else u "https://www.nintendo.com/" ++ loc ++ u "/store/".

Definition api_price (it : list (str * pyval)) : Result str :=
  price ← as_dict (dict_get it (u "price") ||| PDict []);
  let display :=
    dict_get price (u "display") ||| dict_get it (u "displayPrice")
      ||| dict_get it (u "priceDisplay") in
  let '(amount, currency) :=
    match dict_get it (u "price") ||| PDict [] with
    | PDict price_obj =>
        let amt :=
          dict_get price_obj (u "discounted") ||| dict_get price_obj (u "current")
            ||| dict_get price_obj (u "regular") ||| dict_get price_obj (u "amount") in
        (float_ rt amt,
         dict_get price_obj (u "currency") ||| dict_get price_obj (u "currencyCode"))
    | _ => (None, PNone)
    end in
  match display with
  | PStr s => Ok s
  | _ => normalize.price_to_string rt amount currency None
  end.

Definition api_platforms (it : list (str * pyval)) : Result (list str) :=
  let platforms := dict_get it (u "platforms") ||| PList [] in
  let platforms := if truthy platforms then platforms else PList [PStr (u "Switch")] in
  ps ← iterate platforms;
  Ok (map (str_ rt) (List.filter truthy ps)).

Definition _normalize_api_item (it : pyval) : Result (option GameRecord.t) :=
  it ← as_dict it;
  title ← title_arg (dict_get it (u "title") ||| dict_get it (u "name")
                      ||| dict_get it (u "productTitle") ||| PStr []);
  let name := normalize.strip_edition_noise rt (normalize.clean_title title) in
  if null name then Ok None
  else
    image ← api_image it;
    let href := api_href it in
    price_str ← api_price it;
    platforms ← api_platforms it;
    let uuid :=
      dict_get it (u "nsuid") ||| dict_get it (u "id")
        ||| dict_get it (u "productId") in
    rec ← GameRecord.create rt (u "nintendo") name price_str image href
             (if truthy uuid then Some (str_ rt uuid) else None)
             platforms None (Some (u "game"));
    Ok (Some rec).

(** [for it in items: rec = ...; if rec: count += 1; yield rec] *)
Fixpoint normalize_items (items : list pyval) : Gen GameRecord.t :=
  match items with
  | [] => ([], None)
  | it :: items' =>
      match _normalize_api_item it with
      | Raise e => ([], Some e)
      | Ok None => normalize_items items'
      | Ok (Some rec) =>
          let '(recs, e) := normalize_items items' in (rec :: recs, e)
      end
  end.

Section search.

(** [fetch_page] for the query at hand: what [self.get_json] returns, or
    raises, for each page index. *)
Variable fetch_page : Z -> Result pyval.
Variable page_size : Z.

(** [while True: ...] from page index [page]; [fuel] bounds the number of
    pages requested. *)
Fixpoint search_from (fuel : nat) (page : Z) : run :=
  match fuel with
  | O => {| fetched := []; yielded := []; ended := Running |}
  | S fuel' =>
      match fetch_page page with
      | Raise e => {| fetched := [page]; yielded := []; ended := Raised e |}
      | Ok js =>
          let items := _extract_items_from_api js in
          match normalize_items items with
          | (recs, Some e) =>
              {| fetched := [page]; yielded := recs; ended := Raised e |}
          | (recs, None) =>
              let count := Z.of_nat (length recs) in
              if count <? page_size then
                {| fetched := [page]; yielded := recs; ended := Returned |}
              else
                let rest := search_from fuel' (page + 1) in
                {| fetched := page :: fetched rest;
                   yielded := recs ++ yielded rest;
                   ended := ended rest |}
          end
      end
  end.

Definition _iter_search_api (fuel : nat) : run := search_from fuel 0.

End search.

(** *** Strategy B *)

Definition _coerce_to_api_like (it : pyval) (base_url : str) : pyval :=
  match it with
  | PDict it =>
      let g := dict_get it in
      let title := [(u "title", g (u "title") ||| g (u "name")
                                  ||| g (u "productTitle") ||| PStr [])] in
      let image :=
        if truthy (g (u "imageUrl") ||| g (u "image")) then
          [(u "imageUrl", g (u "imageUrl") ||| g (u "image"))]
        else
          let imgs := g (u "images") ||| g (u "keyImages") ||| PList [] in
          if truthy imgs then [(u "keyImages", imgs)] else [] in
      let link := g (u "url") ||| g (u "href") ||| g (u "productUrl") in
      let product_url := [(u "productUrl", link ||| PStr base_url)] in
      let price :=
        match g (u "price") ||| g (u "displayPrice") ||| g (u "priceDisplay") with
        | PDict p => [(u "price", PDict p)]
        | PStr s => [(u "displayPrice", PStr s)]
        | _ => []
        end in
      let nsuid := [(u "nsuid", g (u "nsuid") ||| g (u "id") ||| g (u "productId"))] in
      let plats :=
        if truthy (g (u "platforms")) then [(u "platforms", g (u "platforms"))]
        else [] in
      PDict (title ++ image ++ product_url ++ price ++ nsuid ++ plats)
  | _ => PDict []
  end.

(** Every element of a candidate list, coerced and normalised. *)
Fixpoint candidates (items : list pyval) (base_url : str)
    : Result (list GameRecord.t) :=
  match items with
  | [] => Ok []
  | it :: items' =>
      rec ← _normalize_api_item (_coerce_to_api_like it base_url);
      recs ← candidates items' base_url;
      Ok (match rec with Some r => r :: recs | None => recs end)
  end.

(** [for key in ("products", "items", "results", "tiles"): ...] *)
Fixpoint walk_keys (o : list (str * pyval)) (keys : list str) (base_url : str)
    : Result (list GameRecord.t) :=
  match keys with
  | [] => Ok []
  | key :: keys' =>
      here ←
        match dict_get o key with
        | PList v => candidates v base_url
        | _ => Ok []
        end;
      rest ← walk_keys o keys' base_url;
      Ok (here ++ rest)
  end.

Fixpoint walk (o : pyval) (base_url : str) : Result (list GameRecord.t) :=
  match o with
  | PDict d =>
      here ← walk_keys d [u "products"; u "items"; u "results"; u "tiles"] base_url;
      below ←
        (fix values (d : list (str * pyval)) : Result (list GameRecord.t) :=
           match d with
           | [] => Ok []
           | (_, v) :: d' =>
               a ← walk v base_url; b ← values d'; Ok (a ++ b)
           end) d;
      Ok (here ++ below)
  | PList l =>
      (fix elements (l : list pyval) : Result (list GameRecord.t) :=
         match l with
         | [] => Ok []
         | v :: l' => a ← walk v base_url; b ← elements l'; Ok (a ++ b)
         end) l
  | _ => Ok []
  end.

Definition _parse_next_data (html : page) (base_url : str)
    : Result (list GameRecord.t) :=
  match next_data html with
  | None => Ok []
  | Some None => Ok []
  | Some (Some js) => walk js base_url
  end.

Definition _normalize_jsonld_item (b : list (str * pyval)) (base_url : str)
    : Result (option GameRecord.t) :=
  title ← title_arg (dict_get b (u "name") ||| PStr []);
  let name := normalize.strip_edition_noise rt (normalize.clean_title title) in
  if null name then Ok None
  else
    let image := dict_get b (u "image") in
    let image :=
      match image with
      | PList (x :: _) => x
      | PList [] => PNone
      | _ => image
      end in
    let offers := dict_get b (u "offers") ||| PDict [] in
    let offers :=
      match offers with
      | PList (x :: _) => x
      | PList [] => PDict []
      | _ => offers
      end in
    offers ← as_dict offers;
    let currency := dict_get offers (u "priceCurrency") in
    let amt :=
      if dict_has offers (u "price") then float_ rt (dict_get offers (u "price"))
      else None in
    price_str ← normalize.price_to_string rt amt currency None;
    let href := dict_get b (u "url") ||| PStr base_url in
    let platforms := [u "Switch"] in
    let uuid :=
      dict_get b (u "sku") ||| dict_get b (u "productID")
        ||| dict_get b (u "mpn") ||| PNone in
    rec ← GameRecord.create rt (u "nintendo") name price_str
             (if truthy image then str_ rt image else PLACEHOLDER)
             (str_ rt href)
             (if truthy uuid then Some (str_ rt uuid) else None)
             platforms None (Some (u "game"));
    Ok (Some rec).

Definition is_product_type (v : pyval) : bool :=
  let t := lower rt (str_ rt v) in
  str_eqb t (u "product") || str_eqb t (u "videogame").

(** [b.get("@type", "")] *)
Definition type_of (b : list (str * pyval)) : pyval :=
  if dict_has b (u "@type") then dict_get b (u "@type") else PStr [].

(** [for g in b["@graph"]: ...] *)
Fixpoint jsonld_graph (graph : list pyval) (base_url : str)
    : Result (list GameRecord.t) :=
  match graph with
  | [] => Ok []
  | PDict g :: graph' =>
      here ←
        (if is_product_type (type_of g) then
           rec ← _normalize_jsonld_item g base_url;
           Ok (match rec with Some r => [r] | None => [] end)
         else Ok []);
      rest ← jsonld_graph graph' base_url;
      Ok (here ++ rest)
  | _ :: graph' => jsonld_graph graph' base_url
  end.

(** The body of [for b in blocks]. *)
Definition jsonld_entry (b : pyval) (base_url : str) : Result (list GameRecord.t) :=
  match b with
  | PDict b =>
      match (if dict_has b (u "@graph") then Some (dict_get b (u "@graph")) else None) with
      | Some (PList graph) => jsonld_graph graph base_url
      | _ =>
          if is_product_type (type_of b) then
            rec ← _normalize_jsonld_item b base_url;
            Ok (match rec with Some r => [r] | None => [] end)
          else Ok []
      end
  | _ => Ok []
  end.

Fixpoint jsonld_entries (blocks : list pyval) (base_url : str)
    : Result (list GameRecord.t) :=
  match blocks with
  | [] => Ok []
  | b :: blocks' =>
      here ← jsonld_entry b base_url;
      rest ← jsonld_entries blocks' base_url;
      Ok (here ++ rest)
  end.

(** The loop [for m in _JSONLD_RE.finditer(html)] over the scripts found. *)
Fixpoint jsonld_scripts (scripts : list (option pyval)) (base_url : str)
    : Result (list GameRecord.t) :=
  match scripts with
  | [] => Ok []
  | None :: scripts' => jsonld_scripts scripts' base_url
  | Some block :: scripts' =>
      let blocks := match block with PList l => l | _ => [block] end in
      here ← jsonld_entries blocks base_url;
      rest ← jsonld_scripts scripts' base_url;
      Ok (here ++ rest)
  end.

Definition _parse_jsonld (html : page) (base_url : str)
    : Result (list GameRecord.t) :=
  jsonld_scripts (ld_json html) base_url.

(** The records of one fetched page: those of [__NEXT_DATA__], then those
    of the linked data. *)
Definition _iter_list_page (html : page) (url : str) : Gen GameRecord.t :=
  gen_seq (gen_of (_parse_next_data html url)) (gen_of (_parse_jsonld html url)).

End nintendo.
End nintendo.

(** ** Inputs and reference behaviour used by the statements below *)

(** A runtime for closed evaluations: text whose code points beyond ASCII
    are neither letters nor digits (such as the trademark sign and the
    dashes), and absolute http(s) URLs, which pydantic keeps as they are. *)
Definition ascii_runtime : PyRuntime := {|
  uni_isalnum := fun _ => false;
  uni_lower := map ascii_lower;
  uni_upper := map ascii_upper;
  uni_float := fun _ => None;
  py_repr := fun _ => [];
  http_url := fun s =>
    if is_prefix (u "https://") s || is_prefix (u "http://") s then Some s else None
|}.

(** A runtime for closed evaluations on text in ASCII and Latin-1: the
    letters and digits of U+0080..U+00FF as [str.isalnum] has them, and
    [str.lower] and [str.upper] on that range. *)
Definition latin1_isalnum (c : cp) : bool :=
  (c =? 170) || (c =? 178) || (c =? 179) || (c =? 181) || (c =? 185)
  || (c =? 186) || in_range 188 190 c
  || in_range 192 214 c || in_range 216 246 c || in_range 248 255 c.

Definition latin1_lower (c : cp) : cp :=
  if in_range 192 214 c || in_range 216 222 c then c + 32 else ascii_lower c.

Definition latin1_upper (c : cp) : str :=
  if in_range 224 246 c || in_range 248 254 c then [c - 32]
  else if c =? 255 then [376]
  else if c =? 223 then [83; 83]
  else if c =? 181 then [924]
  else [ascii_upper c].

Definition latin1_runtime : PyRuntime := {|
  uni_isalnum := latin1_isalnum;
  uni_lower := map latin1_lower;
  uni_upper := flat_map latin1_upper;
  uni_float := uni_float ascii_runtime;
  py_repr := py_repr ascii_runtime;
  http_url := http_url ascii_runtime
|}.

(** What [strip_edition_noise] has after removing the noise words, before
    it falls back: [re.sub(r"\s{2,}", " ", t).strip(" -–—")]. *)
Definition edition_stripped (rt : PyRuntime) (name : str) : str :=
  strip_chars (u " -–—")
    (Re.sub normalize._SPACES_RX (u " ")
       (Re.sub (normalize._EDITION_RX rt) [] (normalize.clean_title name))).

(** The float written [19.99]. *)
Definition f19_99 : Float.float := Float.of_decimal false 1999 (-2).

(** The linked-data block of the end-to-end scenario. *)
Definition super_game_block : pyval :=
  PDict
    [(u "@type", PStr (u "VideoGame"));
     (u "name", PStr (u "Super Game™: Deluxe Edition"));
     (u "offers",
      PDict [(u "price", PStr (u "29.99")); (u "priceCurrency", PStr (u "USD"))])].

(** The letter bucket read off the first character of the name itself. *)
Definition letter_bucket_of_first_char (rt : PyRuntime) (name : str) : str :=
  let ch := lower rt (take 1 name) in
  match ch with
  | [c] => if is_ascii_lower c then ch else u "_"
  | _ => u "_"
  end.

(** The item array located at the first key of the priority list that is
    present, whatever its value. *)
Fixpoint first_present (d : list (str * pyval)) (ks : list str) : option pyval :=
  match ks with
  | [] => None
  | k :: ks' => if Py.dict_has d k then Some (Py.dict_get d k) else first_present d ks'
  end.

Definition items_at_first_present_key (js : pyval) : list pyval :=
  let items_of v := match v with PList l => l | _ => [] end in
  match js with
  | PDict d =>
      match first_present d nintendo.container_keys with
      | Some v => items_of v
      | None =>
          match Py.dict_get d (u "data") with
          | PDict data =>
              from_option items_of [] (first_present data nintendo.container_keys)
          | _ => []
          end
      end
  | _ => []
  end.

(** A value is a non-empty list. *)
Definition nonempty_list (v : pyval) : Prop :=
  exists x l, v = PList (x :: l).

(** [v] is the value of the first key, in priority order, that holds a
    non-empty list in [d]. *)
Definition located (d : list (str * pyval)) (v : list pyval) : Prop :=
  exists k before after,
    nintendo.container_keys = before ++ k :: after
    /\ Py.dict_get d k = PList v /\ v <> []
    /\ Forall (fun k' => ~ nonempty_list (Py.dict_get d k')) before.

(** No key of the priority list holds a non-empty list in [d]. *)
Definition unlocated (d : list (str * pyval)) : Prop :=
  Forall (fun k => ~ nonempty_list (Py.dict_get d k)) nintendo.container_keys.

(** No two neighbours are both whitespace. *)
Fixpoint no_space_pair (s : str) : bool :=
  match s with
  | a :: (b :: _) as r => negb (is_space a && is_space b) && no_space_pair r
  | _ => true
  end.

(** The characters kept in a canonical key. *)
Definition is_key_char (c : cp) : bool := is_ascii_lower c || is_ascii_digit c.


(** A string with nothing to strip on the left, on the right. *)
Definition lclean (p : cp -> bool) (s : str) : Prop :=
  match s with [] => True | c :: _ => p c = false end.

Definition rclean (p : cp -> bool) (s : str) : Prop :=
  match last s with None => True | Some c => p c = false end.





(** Every entry of [out] is an entry of [v] stripped, is not empty, and
    neither starts nor ends with whitespace. *)
Definition entries_stripped (v out : list str) : Prop :=
  Forall
    (fun q => q <> [] /\ lclean is_space q /\ rclean is_space q
              /\ exists p, p ∈ v /\ q = strip p)
    out.


(** [blocks = block if isinstance(block, list) else [block]] *)
Definition blocks_of (block : pyval) : list pyval :=
  match block with PList l => l | _ => [block] end.

(** An object is of type Product or VideoGame: its [@type], the empty
    string when it has none, written as a string and lower-cased, is
    [product] or [videogame]. *)
Definition has_product_type (rt : PyRuntime) (o : list (str * pyval)) : bool :=
  let type := if Py.dict_has o (u "@type") then Py.dict_get o (u "@type")
              else PStr [] in
  let t := lower rt (Py.str_ rt type) in
  str_eqb t (u "product") || str_eqb t (u "videogame").

(** The objects of a linked-data script from which records derive, in
    order. A script that is a list stands for its entries; an entry that is
    an object with a [@graph] list stands for the objects in that list that
    are of type Product or VideoGame; any other entry that is an object
    stands for itself when it is of such a type. *)
Definition graph_objects (rt : PyRuntime) (graph : list pyval)
    : list (list (str * pyval)) :=
  g ← graph;
  match g with
  | PDict g => if has_product_type rt g then [g] else []
  | _ => []
  end.

Definition block_objects (rt : PyRuntime) (b : pyval)
    : list (list (str * pyval)) :=
  match b with
  | PDict d =>
      if Py.dict_has d (u "@graph") then
        match Py.dict_get d (u "@graph") with
        | PList graph => graph_objects rt graph
        | _ => if has_product_type rt d then [d] else []
        end
      else if has_product_type rt d then [d] else []
  | _ => []
  end.

Definition script_objects (rt : PyRuntime) (block : pyval)
    : list (list (str * pyval)) :=
  b ← blocks_of block; block_objects rt b.

(** The objects of the scripts of a page that are valid JSON, in page
    order. *)
Definition linked_objects (rt : PyRuntime) (html : nintendo.page)
    : list (list (str * pyval)) :=
  block ← omap id (nintendo.ld_json html); script_objects rt block.

(** The objects normalised one after the other; an object that gives
    [None] gives no record. *)
Fixpoint records_of (rt : PyRuntime) (objs : list (list (str * pyval)))
    (url : str) : Result (list GameRecord.t) :=
  match objs with
  | [] => Ok []
  | o :: objs' =>
      rec ← nintendo._normalize_jsonld_item rt o url;
      recs ← records_of rt objs' url;
      Ok (match rec with Some r => r :: recs | None => recs end)
  end.

(** The same page without one of its linked-data scripts. *)
Definition with_scripts (html : nintendo.page) (scripts : list (option pyval))
    : nintendo.page :=
  {| nintendo.next_data := nintendo.next_data html;
     nintendo.ld_json := scripts |}.

(** A page of the search API whose only raw item has an empty title. *)
Definition untitled_page : pyval :=
  PDict [(u "products", PList [PDict [(u "title", PStr [])]])].

(** A response whose first container key holds an empty list. *)
Definition empty_products_page : pyval :=
  PDict [(u "products", PList []); (u "items", PList [PInt 1])].

(** A linked-data Product block whose offers field is a string. *)
Definition string_offers_fields : list (str * pyval) :=
  [(u "@type", PStr (u "Product"));
   (u "name", PStr (u "Tetris"));
   (u "offers", PStr (u "free"))].

Definition string_offers_block : pyval := PDict string_offers_fields.

(** A listing page with a broken [__NEXT_DATA__] script and two valid
    linked-data scripts: the block of the end-to-end scenario, and a block
    whose normalisation raises. *)
Definition raising_page : nintendo.page :=
  {| nintendo.next_data := Some None;
     nintendo.ld_json := [Some super_game_block; Some string_offers_block] |}.

(** A listing page with a broken [__NEXT_DATA__] script, a broken
    linked-data script, and a linked-data script whose [@graph] holds a
    string, an object of another type, and the block of the end-to-end
    scenario. *)
Definition graph_page : nintendo.page :=
  {| nintendo.next_data := Some None;
     nintendo.ld_json :=
       [None;
        Some (PDict
                [(u "@type", PStr (u "Product"));
                 (u "name", PStr (u "Not a record"));
                 (u "@graph",
                  PList [PStr (u "text");
                         PDict [(u "@type", PStr (u "Organization"));
                                (u "name", PStr (u "Nintendo"))];
                         super_game_block])])] |}.

(** A listing page with the linked-data block of the end-to-end scenario and
    nothing else. *)
Definition super_game_page : nintendo.page :=
  {| nintendo.next_data := None;
     nintendo.ld_json := [Some super_game_block] |}.

Definition games_url : str := u "https://www.nintendo.com/en-us/store/games".

(** The record the end-to-end scenario yields, for a page URL validated to
    [href]. *)
Definition super_game_record (href : str) : GameRecord.t :=
  {| GameRecord.store := u "nintendo";
     GameRecord.name := u "Super Game:";
     GameRecord.price := u "$29.99";
     GameRecord.image := nintendo.PLACEHOLDER;
     GameRecord.href := href;
     GameRecord.uuid := None;
     GameRecord.platforms := [u "Switch"];
     GameRecord.rating := None;
     GameRecord.type := Some (u "game");
     GameRecord.extra := [] |}.


(** A record and a letter item built from a list of platforms with entries
    equal up to case and an empty one. *)
Definition sample_platforms : list str :=
  [u " Switch "; u "switch"; u "  "; u "PC"].

Definition sample_record : GameRecord.t :=
  {| GameRecord.store := u "nintendo";
     GameRecord.name := u "Tetris";
     GameRecord.price := u "Free";
     GameRecord.image := games_url;
     GameRecord.href := games_url;
     GameRecord.uuid := None;
     GameRecord.platforms := [u "Switch"; u "PC"];
     GameRecord.rating := None;
     GameRecord.type := None;
     GameRecord.extra := [] |}.

Definition sample_item : LetterItem.t :=
  {| LetterItem.name := u "Tetris";
     LetterItem.type := None;
     LetterItem.price := u "Free";
     LetterItem.image := games_url;
     LetterItem.href := games_url;
     LetterItem.uuid := None;
     LetterItem.platforms := [u "Switch"; u "PC"];
     LetterItem.rating := None |}.




(** ** catalog/adapters/nintendo.py: seed pages and the crawl *)

Definition _default_seed_pages (rt : PyRuntime) (country locale : str) : list str :=
  let loc := lower rt (replace1 95 45 locale) in
  let base := u "https://www.nintendo.com/" ++ loc ++ u "/store/games" in
  [base;
   base ++ u "/?f=available-now";
   base ++ u "/?f=on-sale";
   base ++ u "/?f=new-releases";
   base ++ u "/?f=coming-soon"].

(** [class NintendoAdapter(Adapter)] *)
Module NintendoAdapter.

(** [NintendoEndpoints]: both fields may be [None]. *)
Record endpoints : Type := {
  search_api : option str;
  seed_pages : option (list str)
}.

(** A request the adapter makes: a page of the search API for a query
    letter, or a listing page. *)
Inductive request : Type :=
| Search (query : Z) (page_index : Z)
| Listing (url : str).

(** What consuming [iter_games] observes: the requests made, in order, the
    records yielded, and how the iteration ended. *)
Record crawl : Type := {
  requests : list request;
  records : list GameRecord.t;
  crawl_ended : nintendo.ending
}.

(** [self.endpoints = endpoints or NintendoEndpoints(search_api=None,
    seed_pages=_default_seed_pages(...))] *)
Definition __init__ (rt : PyRuntime) (country locale : str)
    (given : option endpoints) : endpoints :=
  match given with
  | Some e => e
  | None =>
      {| search_api := None;
         seed_pages := Some (_default_seed_pages rt country locale) |}
  end.

Section iter_games.

Variable rt : PyRuntime.

(** [self.config.locale] *)
Variable locale : str.

(** [self.get_json] on the URL [fetch_page] builds for a query and a page
    index, and [self.get_text] on a URL: what they return or raise. *)
Variable get_json : Z -> Z -> Result pyval.
Variable get_text : str -> Result nintendo.page.

(** [fuel] bounds the pages requested for one query. *)
Variable fuel : nat.

(** [for ch in "abcdefghijklmnopqrstuvwxyz": ...] *)
Fixpoint search_letters (letters : list Z) : crawl :=
  match letters with
  | [] => {| requests := []; records := []; crawl_ended := nintendo.Returned |}
  | ch :: letters' =>
      let r := nintendo.search_from rt locale (get_json ch) 60 fuel 0 in
      match nintendo.ended r with
      | nintendo.Returned =>
          let rest := search_letters letters' in
          {| requests := map (Search ch) (nintendo.fetched r) ++ requests rest;
             records := nintendo.yielded r ++ records rest;
             crawl_ended := crawl_ended rest |}
      | e =>
          {| requests := map (Search ch) (nintendo.fetched r);
             records := nintendo.yielded r;
             crawl_ended := e |}
      end
  end.

(** [for url in self.endpoints.seed_pages or []: ...] *)
Fixpoint list_pages (urls : list str) : crawl :=
  match urls with
  | [] => {| requests := []; records := []; crawl_ended := nintendo.Returned |}
  | url :: urls' =>
      match get_text url with
      | Raise e =>
          {| requests := [Listing url]; records := [];
             crawl_ended := nintendo.Raised e |}
      | Ok html =>
          match nintendo._iter_list_page rt locale html url with
          | (recs, Some e) =>
              {| requests := [Listing url]; records := recs;
                 crawl_ended := nintendo.Raised e |}
          | (recs, None) =>
              let rest := list_pages urls' in
              {| requests := Listing url :: requests rest;
                 records := recs ++ records rest;
                 crawl_ended := crawl_ended rest |}
          end
      end
  end.

Definition iter_games (e : endpoints) : crawl :=
  let pages := list_pages (default [] (seed_pages e)) in
  if negb (null (default [] (search_api e))) then
    let a := search_letters (u "abcdefghijklmnopqrstuvwxyz") in
    match crawl_ended a with
    | nintendo.Returned =>
        {| requests := requests a ++ requests pages;
           records := records a ++ records pages;
           crawl_ended := crawl_ended pages |}
    | _ => a
    end
  else pages.

End iter_games.

End NintendoAdapter.

(** ** catalog/adapters/__init__.py *)

Module adapters.

(** The adapter classes. *)
Inductive adapter_class : Type :=
| SteamAdapter
| PSNAdapter
| XboxAdapter
| NintendoAdapter.

Definition ADAPTERS : list (str * adapter_class) :=
  [(u "steam", SteamAdapter); (u "psn", PSNAdapter);
   (u "xbox", XboxAdapter); (u "nintendo", NintendoAdapter)].

(** [d.get(k)] *)
Fixpoint get {A} (d : list (str * A)) (k : str) : option A :=
  match d with
  | [] => None
  | (k', v) :: d' => if str_eqb k' k then Some v else get d' k
  end.

Definition get_adapter (rt : PyRuntime) (name : str) : option adapter_class :=
  get ADAPTERS (lower rt name).

End adapters.

(** ** Shapes used by the statements on the code beyond the claims *)

(** One of the three glyphs [_MARK_RX] removes. *)
Definition is_mark (c : cp) : bool := (c =? 8482) || (c =? 174) || (c =? 169).

(** The letter buckets: a to z and the underscore. *)
Definition is_bucket (s : str) : Prop :=
  s = u "_" \/ exists c, s = [c] /\ is_ascii_lower c = true.

(** A JSON value that holds no object at any depth. *)
Fixpoint no_object (v : pyval) : bool :=
  match v with
  | PDict _ => false
  | PList l => forallb no_object l
  | _ => true
  end.

(** The pages [first, first + 1, ..., first + n - 1]. *)
Fixpoint page_range (first : Z) (n : nat) : list Z :=
  match n with
  | O => []
  | S n' => first :: page_range (first + 1) n'
  end.

(** The records a page gives when normalising its items raises nothing. *)
Definition page_records (rt : PyRuntime) (locale : str) (js : pyval)
    : option (list GameRecord.t) :=
  match nintendo.normalize_items rt locale (nintendo._extract_items_from_api js) with
  | (recs, None) => Some recs
  | (_, Some _) => None
  end.

(** The records of the pages from [first] on, [n] of them, each fetched and
    normalised without an exception. *)
Fixpoint pages_records (rt : PyRuntime) (locale : str)
    (fetch_page : Z -> Result pyval) (first : Z) (n : nat)
    : option (list (list GameRecord.t)) :=
  match n with
  | O => Some []
  | S n' =>
      match fetch_page first with
      | Ok js =>
          match page_records rt locale js,
                pages_records rt locale fetch_page (first + 1) n' with
          | Some recs, Some rest => Some (recs :: rest)
          | _, _ => None
          end
      | Raise _ => None
      end
  end.

(** *** Sample inputs *)

(** A page of the search API whose only item has a title and nothing else,
    and the record it gives in the locale en-US. *)
Definition tetris_page : pyval :=
  PDict [(u "products", PList [PDict [(u "title", PStr (u "Tetris"))]])].

Definition tetris_record : GameRecord.t :=
  {| GameRecord.store := u "nintendo";
     GameRecord.name := u "Tetris";
     GameRecord.price := u "Unavailable";
     GameRecord.image := nintendo.PLACEHOLDER;
     GameRecord.href := u "https://www.nintendo.com/en-us/store/";
     GameRecord.uuid := None;
     GameRecord.platforms := [u "Switch"];
     GameRecord.rating := None;
     GameRecord.type := Some (u "game");
     GameRecord.extra := [] |}.

(** A search API of two pages: the first holds one record, the second
    none. *)
Definition two_page_catalogue (page : Z) : Result pyval :=
  if page =? 0 then Ok tetris_page else Ok untitled_page.

(** A linked-data Product block whose offers field is a string, and a
    listing page holding that block alone. *)
Definition free_offer_block : list (str * pyval) :=
  [(u "@type", PStr (u "Product"));
   (u "name", PStr (u "Tetris"));
   (u "offers", PStr (u "free"))].

Definition free_offer_page : nintendo.page :=
  {| nintendo.next_data := None;
     nintendo.ld_json := [Some (PDict free_offer_block)] |}.

(** The fields of the linked-data block of the end-to-end scenario. *)
Definition super_game_fields : list (str * pyval) :=
  match super_game_block with PDict b => b | _ => [] end.

(** A site that serves one listing page and fails on any other URL, and
    endpoints without a search API that list that page and two more. *)
Definition one_page_site (url : str) : Result nintendo.page :=
  if str_eqb url games_url then Ok super_game_page else Raise FetchError.

Definition listing_endpoints : NintendoAdapter.endpoints :=
  {| NintendoAdapter.search_api := None;
     NintendoAdapter.seed_pages :=
       Some [games_url; games_url ++ u "/?f=on-sale";
             games_url ++ u "/?f=new-releases"] |}.



(** * Properties *)

(** ** Stripping *)

Section Strip.

Variable p : cp -> bool.


Lemma lstrip_by_lclean s : lclean p (lstrip_by p s).
Proof.
  induction s as [|c r IH]; simpl; [exact I|].
  destruct (p c) eqn:E; [exact IH|]. simpl. exact E.
Qed.

Lemma lstrip_by_id s : lclean p s -> lstrip_by p s = s.
Proof. destruct s as [|c r]; simpl; [reflexivity|]. intros ->. reflexivity. Qed.

Lemma rstrip_by_nil s : rstrip_by p s = [] -> Forall (fun c => p c = true) s.
Proof.
  induction s as [|c r IH]; simpl; [constructor|].
  destruct (rstrip_by p r) eqn:E; [|discriminate].
  destruct (p c) eqn:Ec; [|discriminate].
  intros _. constructor; auto.
Qed.

Lemma rstrip_by_rclean s : rclean p (rstrip_by p s).
Proof.
  unfold rclean. induction s as [|c r IH]; simpl; [exact I|].
  destruct (rstrip_by p r) as [|d r'] eqn:E.
  - destruct (p c) eqn:Ec; simpl; [exact I | exact Ec].
  - change (last (c :: d :: r')) with (last (d :: r')). exact IH.
Qed.

Lemma rstrip_by_id s : rclean p s -> rstrip_by p s = s.
Proof.
  unfold rclean. induction s as [|c r IH]; simpl; [reflexivity|].
  destruct r as [|d r'].
  - simpl. intros ->. reflexivity.
  - change (last (c :: d :: r')) with (last (d :: r')).
    intros H. rewrite (IH H). reflexivity.
Qed.

Lemma rstrip_by_head c r :
  p c = false -> exists r', rstrip_by p (c :: r) = c :: r'.
Proof.
  intros Hc. simpl. destruct (rstrip_by p r) as [|d r'].
  - rewrite Hc. eauto.
  - eauto.
Qed.

Lemma rstrip_by_lclean s : lclean p s -> lclean p (rstrip_by p s).
Proof.
  destruct s as [|c r]; [intros _; exact I|].
  intros Hc. change (p c = false) in Hc.
  destruct (rstrip_by_head c r Hc) as [r' E]. rewrite E. exact Hc.
Qed.

Lemma strip_by_lclean s : lclean p (strip_by p s).
Proof. apply rstrip_by_lclean, lstrip_by_lclean. Qed.

Lemma strip_by_rclean s : rclean p (strip_by p s).
Proof. apply rstrip_by_rclean. Qed.

Lemma strip_by_id s : lclean p s -> rclean p s -> strip_by p s = s.
Proof.
  intros Hl Hr. unfold strip_by. rewrite (lstrip_by_id s Hl).
  apply rstrip_by_id, Hr.
Qed.

Lemma strip_by_idempotent s : strip_by p (strip_by p s) = strip_by p s.
Proof. apply strip_by_id; [apply strip_by_lclean | apply strip_by_rclean]. Qed.

Lemma lstrip_by_suffix s : exists pre, s = pre ++ lstrip_by p s.
Proof.
  induction s as [|c r [pre IH]]; simpl; [exists []; reflexivity|].
  destruct (p c).
  - exists (c :: pre). simpl. f_equal. exact IH.
  - exists []. reflexivity.
Qed.

Lemma rstrip_by_prefix s : exists post, s = rstrip_by p s ++ post.
Proof.
  induction s as [|c r [post IH]]; simpl; [exists []; reflexivity|].
  destruct (rstrip_by p r) as [|d r'] eqn:E.
  - destruct (p c).
    + exists (c :: r). reflexivity.
    + exists r. reflexivity.
  - exists post. simpl. f_equal. exact IH.
Qed.

Lemma elem_of_strip_by c s : c ∈ strip_by p s -> c ∈ s.
Proof.
  unfold strip_by. intros H.
  destruct (lstrip_by_suffix s) as [pre Hpre].
  destruct (rstrip_by_prefix (lstrip_by p s)) as [post Hpost].
  rewrite Hpre, Hpost. rewrite !elem_of_app. auto.
Qed.

End Strip.

(** ** Substitution *)

Lemma sub_from_nil p repl f prev : Re.sub_from p repl f prev [] = [].
Proof. destruct f; reflexivity. Qed.

Lemma count_while_le cls s : (Re.count_while cls s <= length s)%nat.
Proof.
  induction s as [|c r IH]; simpl; [lia|]. destruct (cls c); simpl; lia.
Qed.

Lemma drop_count_while_lclean cls s : lclean cls (drop (Re.count_while cls s) s).
Proof.
  induction s as [|c r IH]; simpl; [exact I|].
  destruct (cls c) eqn:E; simpl; [exact IH | exact E].
Qed.

Lemma count_while_lclean cls s : lclean cls s -> Re.count_while cls s = O.
Proof. destruct s as [|c r]; simpl; [reflexivity|]. intros ->. reflexivity. Qed.

Lemma filter_drop_count_while cls s :
  List.filter (fun c => negb (cls c)) (drop (Re.count_while cls s) s)
  = List.filter (fun c => negb (cls c)) s.
Proof.
  induction s as [|c r IH]; simpl; [reflexivity|].
  destruct (cls c) eqn:E; simpl; [exact IH|]. rewrite E. reflexivity.
Qed.

(** Deleting the runs of a class deletes the code points of the class. *)
Lemma sub_from_run_filter cls f : forall s prev,
  (length s <= f)%nat ->
  Re.sub_from (Re.run_of cls 1) [] f prev s = List.filter (fun c => negb (cls c)) s.
Proof.
  induction f as [|f IH]; intros s prev Hlen.
  - destruct s; [reflexivity | simpl in Hlen; lia].
  - destruct s as [|c r]; [reflexivity|].
    simpl in Hlen. simpl. unfold Re.run_of. simpl Re.count_while.
    destruct (cls c) eqn:E; simpl.
    + rewrite IH.
      * apply filter_drop_count_while.
      * rewrite length_drop. lia.
    + f_equal. apply IH. lia.
Qed.

Lemma sub_from_one_filter cls f : forall s prev,
  (length s <= f)%nat ->
  Re.sub_from (Re.one_of cls) [] f prev s = List.filter (fun c => negb (cls c)) s.
Proof.
  induction f as [|f IH]; intros s prev Hlen.
  - destruct s; [reflexivity | simpl in Hlen; lia].
  - destruct s as [|c r]; [reflexivity|].
    simpl in Hlen. simpl.
    destruct (cls c) eqn:E; simpl.
    + rewrite drop_0. apply IH. lia.
    + f_equal. apply IH. lia.
Qed.

Lemma filter_all (q : Z -> bool) s :
  Forall (fun c => q c = true) s -> List.filter q s = s.
Proof.
  induction 1 as [|c r Hc _ IH]; simpl; [reflexivity|].
  rewrite Hc, IH. reflexivity.
Qed.

Lemma Forall_filter_true (q : Z -> bool) s :
  Forall (fun c => q c = true) (List.filter q s).
Proof.
  induction s as [|c r IH]; simpl; [constructor|].
  destruct (q c) eqn:E; [constructor; assumption | assumption].
Qed.

(** *** Collapsing runs of whitespace *)

Section Spaces.

Local Abbreviation X := (Re.sub_from normalize._SPACES_RX (u " ")).

Lemma spaces_step_keep f prev c r :
  is_space c = false \/ lclean is_space r ->
  X (S f) prev (c :: r) = c :: X f (Some c) r.
Proof.
  intros H. simpl. unfold normalize._SPACES_RX, Re.run_of. simpl Re.count_while.
  destruct (is_space c) eqn:E; [|reflexivity].
  destruct H as [H|H]; [discriminate|].
  rewrite (count_while_lclean _ _ H). reflexivity.
Qed.

Lemma spaces_step_run f prev c d r :
  is_space c = true -> is_space d = true ->
  exists prev',
    X (S f) prev (c :: d :: r)
    = 32 :: X f prev' (drop (Re.count_while is_space r) r).
Proof.
  intros Hc Hd. simpl. unfold normalize._SPACES_RX, Re.run_of.
  simpl Re.count_while. rewrite Hc, Hd. simpl. eauto.
Qed.

(** The three shapes of a subject, for the proofs below. *)
Lemma spaces_cases (s : str) :
  s = []
  \/ (exists c r, s = c :: r /\ (is_space c = false \/ lclean is_space r))
  \/ (exists c d r, s = c :: d :: r /\ is_space c = true /\ is_space d = true).
Proof.
  destruct s as [|c r]; [left; reflexivity|]. right.
  destruct (is_space c) eqn:Ec; [|left; eauto 6].
  destruct r as [|d r]; [left; exists c, []; split; [reflexivity|right; exact I]|].
  destruct (is_space d) eqn:Ed.
  - right. eauto 8.
  - left. exists c, (d :: r). split; [reflexivity|]. right. exact Ed.
Qed.

Lemma spaces_lclean f : forall s prev,
  (length s <= f)%nat -> lclean is_space s -> lclean is_space (X f prev s).
Proof.
  destruct f as [|f]; intros s prev Hlen Hs.
  - destruct s; [exact I | simpl in Hlen; lia].
  - destruct s as [|c r]; [exact I|].
    rewrite spaces_step_keep by (left; exact Hs). exact Hs.
Qed.

Lemma no_space_pair_cons a o :
  is_space a = false \/ lclean is_space o ->
  no_space_pair o = true -> no_space_pair (a :: o) = true.
Proof.
  intros H Ho. destruct o as [|b o']; [reflexivity|].
  change (negb (is_space a && is_space b) && no_space_pair (b :: o') = true).
  rewrite Ho, andb_true_r.
  destruct H as [->|H]; [reflexivity|].
  simpl in H. rewrite H, andb_false_r. reflexivity.
Qed.

Lemma spaces_no_pair f : forall s prev,
  (length s <= f)%nat -> no_space_pair (X f prev s) = true.
Proof.
  induction f as [|f IH]; intros s prev Hlen.
  - destruct s; [reflexivity | simpl in Hlen; lia].
  - destruct (spaces_cases s) as [->|[(c & r & -> & H)|(c & d & r & -> & Hc & Hd)]].
    + reflexivity.
    + simpl in Hlen. rewrite spaces_step_keep by exact H.
      apply no_space_pair_cons.
      * destruct H as [H|H]; [left; exact H|].
        right. apply spaces_lclean; [lia | exact H].
      * apply IH. lia.
    + simpl in Hlen.
      destruct (spaces_step_run f prev c d r Hc Hd) as [prev' ->].
      pose proof (count_while_le is_space r).
      apply no_space_pair_cons.
      * right. apply spaces_lclean; [rewrite length_drop; lia|].
        apply drop_count_while_lclean.
      * apply IH. rewrite length_drop. lia.
Qed.

Lemma spaces_fixed f : forall s prev,
  (length s <= f)%nat -> no_space_pair s = true -> X f prev s = s.
Proof.
  induction f as [|f IH]; intros s prev Hlen Hs.
  - destruct s; [reflexivity | simpl in Hlen; lia].
  - destruct (spaces_cases s) as [->|[(c & r & -> & H)|(c & d & r & -> & Hc & Hd)]].
    + reflexivity.
    + simpl in Hlen. rewrite spaces_step_keep by exact H. f_equal.
      apply IH; [lia|]. destruct r as [|b r']; [reflexivity|].
      change (negb (is_space c && is_space b) && no_space_pair (b :: r') = true) in Hs.
      apply andb_true_iff in Hs. tauto.
    + change (negb (is_space c && is_space d) && no_space_pair (d :: r) = true) in Hs.
      rewrite Hc, Hd in Hs. discriminate.
Qed.

Lemma spaces_Forall (Q : Z -> Prop) f : forall s prev,
  Q 32 -> (length s <= f)%nat -> Forall Q s -> Forall Q (X f prev s).
Proof.
  intros s prev H32. revert s prev.
  induction f as [|f IH]; intros s prev Hlen Hs.
  - destruct s; [constructor | simpl in Hlen; lia].
  - destruct (spaces_cases s) as [->|[(c & r & -> & H)|(c & d & r & -> & Hc & Hd)]].
    + constructor.
    + simpl in Hlen. rewrite spaces_step_keep by exact H.
      inversion Hs; subst. constructor; [assumption|]. apply IH; [lia|assumption].
    + simpl in Hlen.
      destruct (spaces_step_run f prev c d r Hc Hd) as [prev' ->].
      pose proof (count_while_le is_space r).
      constructor; [exact H32|]. apply IH; [rewrite length_drop; lia|].
      apply Forall_drop. inversion Hs as [|? ? _ Hs']; subst.
      inversion Hs'; subst. assumption.
Qed.

Lemma last_drop_count_while c r x :
  last (c :: r) = Some x -> is_space x = false -> is_space c = true ->
  last (drop (Re.count_while is_space r) r) = Some x.
Proof.
  revert c. induction r as [|d r IH]; intros c Hl Hx Hc.
  - simpl in Hl. injection Hl as ->. congruence.
  - change (last (d :: r) = Some x) in Hl. simpl.
    destruct (is_space d) eqn:Ed; simpl; [|exact Hl].
    apply (IH d); assumption.
Qed.

Lemma spaces_last f : forall s prev x,
  (length s <= f)%nat -> last s = Some x -> is_space x = false ->
  last (X f prev s) = Some x.
Proof.
  induction f as [|f IH]; intros s prev x Hlen Hl Hx.
  - destruct s; [discriminate | simpl in Hlen; lia].
  - destruct (spaces_cases s) as [->|[(c & r & -> & H)|(c & d & r & -> & Hc & Hd)]].
    + discriminate.
    + simpl in Hlen. rewrite spaces_step_keep by exact H.
      destruct r as [|b r'].
      * rewrite sub_from_nil. exact Hl.
      * change (last (b :: r') = Some x) in Hl.
        specialize (IH (b :: r') (Some c) x ltac:(simpl in *; lia) Hl Hx).
        destruct (X f (Some c) (b :: r')) as [|o os]; [discriminate|].
        exact IH.
    + simpl in Hlen.
      destruct (spaces_step_run f prev c d r Hc Hd) as [prev' ->].
      pose proof (count_while_le is_space r).
      change (last (d :: r) = Some x) in Hl.
      pose proof (last_drop_count_while d r x Hl Hx Hd) as Hl'.
      specialize (IH (drop (Re.count_while is_space r) r) prev' x
                  ltac:(rewrite length_drop; lia) Hl' Hx).
      destruct (X f prev' (drop (Re.count_while is_space r) r)) as [|o os];
        [discriminate|].
      exact IH.
Qed.

Lemma spaces_rclean f s prev :
  (length s <= f)%nat -> rclean is_space s -> rclean is_space (X f prev s).
Proof.
  intros Hlen. unfold rclean. destruct (last s) as [x|] eqn:E.
  - intros Hx. rewrite (spaces_last f s prev x Hlen E Hx). exact Hx.
  - destruct s as [|c r].
    + rewrite sub_from_nil. intros _. exact I.
    + apply last_None in E. discriminate.
Qed.

End Spaces.

(** ** normalize.py *)

Section Normalize.

Variable rt : PyRuntime.

Local Abbreviation unmarked :=
  (Forall (fun c => negb ((c =? 8482) || (c =? 174) || (c =? 169)) = true)).

(** What every cleaned title satisfies. *)
Lemma clean_title_clean x :
  let y := normalize.clean_title x in
  unmarked y /\ lclean is_space y /\ rclean is_space y /\ no_space_pair y = true.
Proof.
  unfold normalize.clean_title, Re.sub. cbv zeta.
  set (z := strip _).
  assert (Hz : unmarked z).
  { apply Forall_forall. intros c Hc. apply elem_of_strip_by in Hc.
    unfold normalize._MARK_RX in Hc.
    rewrite sub_from_one_filter in Hc by reflexivity.
    pose proof (Forall_filter_true
      (fun c => negb ((c =? 8482) || (c =? 174) || (c =? 169))) x) as HF.
    rewrite Forall_forall in HF. apply HF. exact Hc. }
  split; [|split; [|split]].
  - apply spaces_Forall; [reflexivity | reflexivity | exact Hz].
  - apply spaces_lclean; [reflexivity | apply strip_by_lclean].
  - apply spaces_rclean; [reflexivity | apply strip_by_rclean].
  - apply spaces_no_pair. reflexivity.
Qed.

(** A string of that shape is left as it is. *)
Lemma clean_title_fixed y :
  unmarked y -> lclean is_space y -> rclean is_space y ->
  no_space_pair y = true -> normalize.clean_title y = y.
Proof.
  intros Hm Hl Hr Hp. unfold normalize.clean_title, Re.sub. cbv zeta.
  unfold normalize._MARK_RX. rewrite sub_from_one_filter by reflexivity.
  rewrite (filter_all _ y Hm).
  unfold strip. rewrite (strip_by_id _ y Hl Hr).
  apply spaces_fixed; [reflexivity | exact Hp].
Qed.

Lemma clean_title_idempotent x :
  normalize.clean_title (normalize.clean_title x) = normalize.clean_title x.
Proof.
  destruct (clean_title_clean x) as (Hm & Hl & Hr & Hp).
  apply clean_title_fixed; assumption.
Qed.

Lemma spaces_sub_fixed y :
  normalize.clean_title y = y -> Re.sub normalize._SPACES_RX (u " ") y = y.
Proof.
  intros H. destruct (clean_title_clean y) as (_ & _ & _ & Hp).
  cbv zeta in Hp. rewrite H in Hp.
  apply spaces_fixed; [reflexivity | exact Hp].
Qed.

Lemma strip_edition_noise_again x :
  let y := normalize.strip_edition_noise rt x in
  normalize.clean_title y = y ->
  Re.sub (normalize._EDITION_RX rt) [] y = y ->
  normalize.strip_edition_noise rt y = y.
Proof.
  cbv zeta.
  pose (c := normalize.clean_title x).
  pose (t := strip_chars (u " -–—")
               (Re.sub normalize._SPACES_RX (u " ")
                  (Re.sub (normalize._EDITION_RX rt) [] c))).
  change (normalize.strip_edition_noise rt x) with (if null t then c else t).
  destruct (null t) eqn:Et.
  - (* the fallback: the cleaned title itself *)
    intros _ _. unfold normalize.strip_edition_noise. cbv zeta.
    unfold c. rewrite clean_title_idempotent. fold c. fold t.
    rewrite Et. reflexivity.
  - intros H1 H2. unfold normalize.strip_edition_noise. cbv zeta.
    rewrite H1, H2, (spaces_sub_fixed t H1).
    assert (Hs : strip_chars (u " -–—") t = t)
      by (unfold t, strip_chars; apply strip_by_idempotent).
    rewrite Hs, Et. reflexivity.
Qed.

Lemma strip_edition_noise_unfold x :
  normalize.strip_edition_noise rt x
  = if null (edition_stripped rt x) then normalize.clean_title x
    else edition_stripped rt x.
Proof. reflexivity. Qed.

Lemma edition_stripped_clean_title x :
  edition_stripped rt (normalize.clean_title x) = edition_stripped rt x.
Proof. unfold edition_stripped. rewrite clean_title_idempotent. reflexivity. Qed.

(** After a fallback the second call falls back again. *)
Lemma strip_edition_noise_fallback x :
  edition_stripped rt x = [] ->
  normalize.strip_edition_noise rt x = normalize.clean_title x
  /\ normalize.strip_edition_noise rt (normalize.strip_edition_noise rt x)
     = normalize.strip_edition_noise rt x.
Proof.
  intros H.
  assert (E : normalize.strip_edition_noise rt x = normalize.clean_title x)
    by (rewrite strip_edition_noise_unfold, H; reflexivity).
  split; [exact E|]. rewrite E at 1.
  rewrite strip_edition_noise_unfold, edition_stripped_clean_title, H.
  rewrite clean_title_idempotent. symmetry. exact E.
Qed.

End Normalize.

(** C5, as the code has it. [clean_title] is idempotent on every string.
    [strip_edition_noise] applied to its own result [y] returns [y] in two
    cases: when the first call fell back to the cleaned title, because
    removing the noise words left nothing (then [y] is the cleaned title
    and the second call falls back again, even though the pattern still
    matches in [y]); and when [y] is itself a cleaned title
    ([clean_title y = y]) in which the edition pattern finds nothing more.
    It is not idempotent on every string. *)
Theorem clean_title_idempotent_edition_noise_conditionally
    (rt : PyRuntime) (x : str) :
  normalize.clean_title (normalize.clean_title x) = normalize.clean_title x
  /\ (let y := normalize.strip_edition_noise rt x in
      (edition_stripped rt x = [] ->
       y = normalize.clean_title x /\ normalize.strip_edition_noise rt y = y)
      /\ (edition_stripped rt x <> [] -> y = edition_stripped rt x)
      /\ (normalize.clean_title y = y ->
          Re.sub (normalize._EDITION_RX rt) [] y = y ->
          normalize.strip_edition_noise rt y = y)).
Proof.
  split; [apply clean_title_idempotent|]. cbv zeta. split; [|split].
  - apply strip_edition_noise_fallback.
  - intros H. rewrite strip_edition_noise_unfold.
    destruct (edition_stripped rt x); [contradiction | reflexivity].
  - apply strip_edition_noise_again.
Qed.

Lemma strip_edition_noise_not_idempotent :
  normalize.strip_edition_noise ascii_runtime
    (normalize.strip_edition_noise ascii_runtime (u "Game director's HD cut"))
  <> normalize.strip_edition_noise ascii_runtime (u "Game director's HD cut").
Proof. vm_compute. discriminate. Qed.

(** ** dedupe.py *)

Section Dedupe.

Variable rt : PyRuntime.

Lemma canonical_key_filter name :
  dedupe.canonical_key rt name
  = List.filter is_key_char (lower rt (normalize.strip_edition_noise rt name)).
Proof.
  unfold dedupe.canonical_key, dedupe._NON_KEY_RX, Re.sub. cbv zeta.
  rewrite sub_from_run_filter by reflexivity.
  apply List.filter_ext. intros c. apply negb_involutive.
Qed.

Local Abbreviation keyed k :=
  (fun r : GameRecord.t => str_eqb (dedupe.canonical_key rt (GameRecord.name r)) k).

Local Abbreviation bucket_of l :=
  (match l with [] => None | _ :: _ => Some l end).

Lemma cluster_snoc records r :
  dedupe.cluster rt (records ++ [r])
  = let buckets := dedupe.cluster rt records in
    let k := dedupe.canonical_key rt (GameRecord.name r) in
    <[k := default [] (buckets !! k) ++ [r]]> buckets.
Proof. unfold dedupe.cluster. rewrite foldl_app. reflexivity. Qed.

Lemma cluster_lookup records : forall k,
  dedupe.cluster rt records !! k = bucket_of (List.filter (keyed k) records).
Proof.
  induction records as [|r records IH] using rev_ind; intros k.
  - reflexivity.
  - rewrite cluster_snoc. cbv zeta. rewrite List.filter_app. simpl List.filter.
    destruct (decide (dedupe.canonical_key rt (GameRecord.name r) = k)) as [E|E].
    + replace (str_eqb (dedupe.canonical_key rt (GameRecord.name r)) k)
        with true by (symmetry; apply bool_decide_eq_true_2; exact E).
      subst k. rewrite lookup_insert_eq, IH.
      destruct (List.filter _ records); reflexivity.
    + replace (str_eqb (dedupe.canonical_key rt (GameRecord.name r)) k)
        with false by (symmetry; apply bool_decide_eq_false_2; exact E).
      rewrite lookup_insert_ne by exact E. rewrite app_nil_r. apply IH.
Qed.

End Dedupe.

(** C6, as the code has it. The canonical key of a title is its
    edition-noise-stripped form, lower-cased, with every code point other
    than the ASCII letters a-z and the digits 0-9 removed, letters and
    digits beyond ASCII included; the two spellings of the Halo title both
    get the key haloinfinite; and [cluster] maps each key to the records of
    the input that have it, in input order (a key no record has is
    absent). *)
Theorem canonical_key_and_cluster (rt : PyRuntime) :
  (forall name,
     dedupe.canonical_key rt name
     = List.filter is_key_char (lower rt (normalize.strip_edition_noise rt name)))
  /\ dedupe.canonical_key rt (u "Halo: Infinite – Deluxe Edition")
     = u "haloinfinite"
  /\ dedupe.canonical_key rt (u "HALO INFINITE") = u "haloinfinite"
  /\ (forall (records : list GameRecord.t) (k : str),
        dedupe.cluster rt records !! k
        = match
            List.filter
              (fun r => str_eqb (dedupe.canonical_key rt (GameRecord.name r)) k)
              records
          with
          | [] => None
          | bucket => Some bucket
          end).
Proof.
  split; [apply canonical_key_filter|].
  split; [vm_compute; reflexivity|]. split; [vm_compute; reflexivity|].
  intros records k. rewrite cluster_lookup.
  destruct (List.filter _ records); reflexivity.
Qed.

(** The letter e with an acute accent is alphanumeric and lower case, and
    the key drops it. *)
Lemma canonical_key_drops_accented_letter :
  is_word latin1_runtime 233 = true
  /\ lower latin1_runtime (u "Pokémon") = u "pokémon"
  /\ normalize.strip_edition_noise latin1_runtime (u "Pokémon") = u "Pokémon"
  /\ dedupe.canonical_key latin1_runtime (u "Pokémon") = u "pokmon".
Proof.
  split; [vm_compute; reflexivity|]. split; [vm_compute; reflexivity|].
  split; vm_compute; reflexivity.
Qed.

(** C7. [price_to_string] formats 19.99 with USD as $19.99, with EUR as
    EUR 19.99, gives Unavailable when amount and currency are [None], and
    returns a non-empty [flags] string whatever the amount and currency. *)
Theorem price_to_string_examples (rt : PyRuntime) :
  normalize.price_to_string rt (Some f19_99) (PStr (u "USD")) None = Ok (u "$19.99")
  /\ normalize.price_to_string rt (Some f19_99) (PStr (u "EUR")) None
     = Ok (u "EUR 19.99")
  /\ normalize.price_to_string rt None PNone None = Ok (u "Unavailable")
  /\ normalize.price_to_string rt (Some f19_99) (PStr (u "USD")) (Some (u "Free"))
     = Ok (u "Free")
  /\ (forall amount currency c flags,
        normalize.price_to_string rt amount currency (Some (c :: flags))
        = Ok (c :: flags)).
Proof.
  repeat split; try (vm_compute; reflexivity).
Qed.

(** ** Letter buckets *)

Lemma le_a_z d :
  Str.le (u "a") [d] && Str.le [d] (u "z") = is_ascii_lower d.
Proof.
  change (u "a") with [97]. change (u "z") with [122].
  unfold is_ascii_lower, in_range. cbn [Str.le].
  destruct (97 <? d) eqn:E1, (97 =? d) eqn:E2, (d <? 122) eqn:E3,
    (d =? 122) eqn:E4, (97 <=? d) eqn:E5, (d <=? 122) eqn:E6;
    simpl; try reflexivity; lia.
Qed.

Lemma le_a_z_other d r :
  is_ascii_lower d = false ->
  Str.le (u "a") (d :: r) && Str.le (d :: r) (u "z") = false.
Proof.
  change (u "a") with [97]. change (u "z") with [122].
  unfold is_ascii_lower, in_range. cbn [Str.le].
  destruct (97 <? d) eqn:E1, (97 =? d) eqn:E2, (d <? 122) eqn:E3,
    (d =? 122) eqn:E4, (97 <=? d) eqn:E5, (d <=? 122) eqn:E6;
    simpl; intros H; try discriminate; try reflexivity; try lia;
    rewrite ?andb_false_r; try reflexivity.
Qed.

Lemma lower_ascii1 rt c : is_ascii c = true -> lower rt [c] = [ascii_lower c].
Proof. intros H. unfold lower. simpl. rewrite H. reflexivity. Qed.

(** C9, as the code has it. The bucket is decided by the first character
    of the name after surrounding whitespace is stripped, lower-cased: an
    ASCII character lower-cases to itself or to its lower-case letter; when
    the lower-cased form is a single letter a-z it is the bucket; when it is
    empty or starts with anything else the bucket is the underscore. Tetris
    goes to t and 2048 to the underscore. *)
Theorem letter_bucket_by_first_stripped_char (rt : PyRuntime) (name : str) :
  normalize.letter_bucket rt (u "Tetris") = u "t"
  /\ normalize.letter_bucket rt (u "2048") = u "_"
  /\ match strip name with
     | [] => normalize.letter_bucket rt name = u "_"
     | c :: _ =>
         let ch := lower rt [c] in
         (is_ascii c = true -> ch = [ascii_lower c])
         /\ (forall d, ch = [d] -> is_ascii_lower d = true ->
               normalize.letter_bucket rt name = [d])
         /\ (forall d r, ch = d :: r -> is_ascii_lower d = false ->
               normalize.letter_bucket rt name = u "_")
         /\ (ch = [] -> normalize.letter_bucket rt name = u "_")
     end.
Proof.
  split; [vm_compute; reflexivity|]. split; [vm_compute; reflexivity|].
  unfold normalize.letter_bucket. cbv zeta.
  destruct (strip name) as [|c r]; [reflexivity|].
  change (take 1 (c :: r)) with [c].
  split; [apply lower_ascii1|]. split; [|split].
  - intros d -> Hd. rewrite le_a_z, Hd. reflexivity.
  - intros d r' -> Hd. rewrite (le_a_z_other d r' Hd). reflexivity.
  - intros ->. reflexivity.
Qed.

Lemma letter_bucket_skips_leading_space :
  normalize.letter_bucket ascii_runtime (u " Tetris")
  <> letter_bucket_of_first_char ascii_runtime (u " Tetris").
Proof. vm_compute. discriminate. Qed.

(** ** models.py: the platforms validator *)

Section Platforms.

Variable rt : PyRuntime.

Local Abbreviation key := (lower rt).
Local Abbreviation kept v seen := (platforms_loop rt v seen []).

Lemma platforms_loop_acc v : forall seen out,
  platforms_loop rt v seen out = out ++ kept v seen.
Proof.
  induction v as [|p v IH]; intros seen out; simpl.
  - rewrite app_nil_r. reflexivity.
  - destruct (negb (null (strip p)) && bool_decide (key (strip p) ∉ seen)).
    + rewrite (IH _ (out ++ [strip p])), (IH _ [strip p]).
      rewrite <- app_assoc. reflexivity.
    + apply IH.
Qed.

(** One step of the loop, on the list it has still to build. *)
Lemma kept_cons p v seen :
  kept (p :: v) seen
  = if negb (null (strip p)) && bool_decide (key (strip p) ∉ seen)
    then strip p :: kept v ({[key (strip p)]} ∪ seen)
    else kept v seen.
Proof.
  simpl. destruct (negb (null (strip p)) && bool_decide (key (strip p) ∉ seen)).
  - rewrite platforms_loop_acc. reflexivity.
  - reflexivity.
Qed.

Lemma null_false (s : str) : null s = false <-> s <> [].
Proof. destruct s; simpl; split; congruence. Qed.

Lemma kept_cases p v seen :
  (strip p <> [] /\ (key (strip p) ∉ seen)
   /\ kept (p :: v) seen = strip p :: kept v ({[key (strip p)]} ∪ seen))
  \/ ((strip p = [] \/ key (strip p) ∈ seen)
      /\ kept (p :: v) seen = kept v seen).
Proof.
  rewrite kept_cons.
  destruct (null (strip p)) eqn:En; simpl.
  - right. split; [left; destruct (strip p); [reflexivity|discriminate]|reflexivity].
  - apply null_false in En.
    destruct (bool_decide_reflect (key (strip p) ∉ seen)) as [H|H].
    + left. auto.
    + right. split; [right|reflexivity].
      destruct (decide (key (strip p) ∈ seen)); [assumption|contradiction].
Qed.

Lemma kept_fresh v : forall seen q,
  q ∈ kept v seen -> (key q ∉ seen) /\ q <> [] /\ exists p, p ∈ v /\ q = strip p.
Proof.
  induction v as [|p v IH]; intros seen q Hq.
  - inversion Hq.
  - destruct (kept_cases p v seen) as [(Hne & Hns & E)|(_ & E)];
      rewrite E in Hq.
    + apply elem_of_cons in Hq as [->|Hq].
      * split; [exact Hns|]. split; [exact Hne|].
        exists p. split; [left|reflexivity].
      * destruct (IH _ _ Hq) as (H1 & H2 & p' & Hp' & ->).
        split; [intros Hs; apply H1, elem_of_union; right; exact Hs|].
        split; [exact H2|].
        exists p'. split; [right; exact Hp'|reflexivity].
    + destruct (IH _ _ Hq) as (H1 & H2 & p' & Hp' & ->).
      split; [exact H1|]. split; [exact H2|].
      exists p'. split; [right; exact Hp'|reflexivity].
Qed.

Lemma kept_NoDup v : forall seen, NoDup (key <$> kept v seen).
Proof.
  induction v as [|p v IH]; intros seen.
  - constructor.
  - destruct (kept_cases p v seen) as [(Hne & Hns & E)|(_ & E)]; rewrite E.
    + rewrite fmap_cons. constructor; [|apply IH].
      intros Hin. apply list_elem_of_fmap in Hin as (q & Hk & Hq).
      apply kept_fresh in Hq as (Hq & _). rewrite <- Hk in Hq.
      apply Hq, elem_of_union. left. apply elem_of_singleton. reflexivity.
    + apply IH.
Qed.









Lemma strip_nonempty_clean (s : str) :
  lclean is_space (strip s) /\ rclean is_space (strip s).
Proof. split; [apply strip_by_lclean | apply strip_by_rclean]. Qed.

Lemma platforms_loop_entries v : entries_stripped v (kept v ∅).
Proof.
  apply Forall_forall. intros q Hq.
  apply kept_fresh in Hq as (_ & Hne & p & Hp & ->).
  split; [exact Hne|]. destruct (strip_nonempty_clean p). eauto.
Qed.

Lemma GameRecord_create_platforms store name price image href uuid v rating type g :
  GameRecord.create rt store name price image href uuid v rating type = Ok g ->
  GameRecord.platforms g = GameRecord._platforms_clean rt v.
Proof.
  unfold GameRecord.create.
  destruct (is_literal stores store); [|discriminate].
  destruct (http_url rt image); [|discriminate].
  destruct (http_url rt href); [|discriminate].
  destruct (from_option _ _ rating); [|discriminate].
  intros [= <-]. reflexivity.
Qed.

Lemma LetterItem_create_platforms name type price image href uuid v rating l :
  LetterItem.create rt name type price image href uuid v rating = Ok l ->
  LetterItem.platforms l = LetterItem._platforms_clean rt v.
Proof.
  unfold LetterItem.create.
  destruct (http_url rt image); [|discriminate].
  destruct (http_url rt href); [|discriminate].
  destruct (from_option _ _ rating); [|discriminate].
  intros [= <-]. reflexivity.
Qed.

End Platforms.


(** C10. Every entry of the [platforms] field of a constructed
    [GameRecord] or [LetterItem] is an input entry stripped of surrounding
    whitespace, is not empty, and neither starts nor ends with whitespace. *)
Theorem platforms_entries_stripped_nonempty (rt : PyRuntime) :
  (forall store name price image href uuid v rating type g,
     GameRecord.create rt store name price image href uuid v rating type = Ok g ->
     entries_stripped v (GameRecord.platforms g))
  /\ (forall name type price image href uuid v rating l,
        LetterItem.create rt name type price image href uuid v rating = Ok l ->
        entries_stripped v (LetterItem.platforms l)).
Proof.
  split; intros.
  - erewrite GameRecord_create_platforms by eassumption.
    apply platforms_loop_entries.
  - erewrite LetterItem_create_platforms by eassumption.
    apply platforms_loop_entries.
Qed.

(** ** The search API: locating the items *)

Lemma nonempty_list_dec v :
  {x : pyval & {l | v = PList (x :: l)}} + {~ nonempty_list v}.
Proof.
  destruct v as [| | | | |[|x l]|];
    try (right; intros (x' & l' & H); discriminate).
  left. eauto.
Qed.

Lemma first_items_skip d k ks :
  ~ nonempty_list (Py.dict_get d k) ->
  nintendo.first_items d (k :: ks) = nintendo.first_items d ks.
Proof.
  intros H. simpl. destruct (Py.dict_get d k) as [| | | | |[|x l]|]; try reflexivity.
  exfalso. apply H. exists x, l. reflexivity.
Qed.

Lemma first_items_here d k ks v :
  Py.dict_get d k = PList v -> v <> [] ->
  nintendo.first_items d (k :: ks) = Some v.
Proof.
  intros E Hv. simpl. rewrite E. destruct v; [contradiction|reflexivity].
Qed.

Lemma first_items_found d k v : forall before after,
  Forall (fun k' => ~ nonempty_list (Py.dict_get d k')) before ->
  Py.dict_get d k = PList v -> v <> [] ->
  nintendo.first_items d (before ++ k :: after) = Some v.
Proof.
  induction before as [|k0 before IH]; intros after Hb E Hv.
  - apply first_items_here; assumption.
  - inversion Hb; subst. simpl app. rewrite first_items_skip by assumption.
    apply IH; assumption.
Qed.

Lemma first_items_none d ks :
  Forall (fun k => ~ nonempty_list (Py.dict_get d k)) ks ->
  nintendo.first_items d ks = None.
Proof.
  induction 1 as [|k ks Hk _ IH]; [reflexivity|].
  rewrite first_items_skip by assumption. exact IH.
Qed.

Lemma located_first_items d v :
  located d v -> nintendo.first_items d nintendo.container_keys = Some v.
Proof.
  intros (k & before & after & -> & E & Hv & Hb).
  apply first_items_found; assumption.
Qed.

(** C3, as the code has it. For a JSON object the items are the value of
    the first key among products, items, results that holds a non-empty
    list; when no such key holds one, the same search is made in the object
    under data; otherwise, and for a value that is no object, there are no
    items. *)
Theorem extract_items_first_nonempty_list (js : pyval) :
  match js with
  | PDict d =>
      (forall v, located d v -> nintendo._extract_items_from_api js = v)
      /\ (unlocated d ->
          match Py.dict_get d (u "data") with
          | PDict data =>
              (forall v, located data v -> nintendo._extract_items_from_api js = v)
              /\ (unlocated data -> nintendo._extract_items_from_api js = [])
          | _ => nintendo._extract_items_from_api js = []
          end)
  | _ => nintendo._extract_items_from_api js = []
  end.
Proof.
  destruct js as [| | | | | |d]; try reflexivity.
  split.
  - intros v Hv. unfold nintendo._extract_items_from_api.
    rewrite (located_first_items d v Hv). reflexivity.
  - intros Hd. unfold nintendo._extract_items_from_api.
    rewrite (first_items_none d _ Hd).
    destruct (Py.dict_get d (u "data")) as [| | | | | |data]; try reflexivity.
    split.
    + intros v Hv. rewrite (located_first_items data v Hv). reflexivity.
    + intros Hdata. rewrite (first_items_none data _ Hdata). reflexivity.
Qed.

Lemma extract_items_skips_empty_list :
  nintendo._extract_items_from_api empty_products_page
  <> items_at_first_present_key empty_products_page.
Proof. vm_compute. discriminate. Qed.

Lemma extract_items_located_example :
  nintendo._extract_items_from_api empty_products_page = [PInt 1].
Proof.
  pose proof (extract_items_first_nonempty_list empty_products_page) as [H _].
  apply H. exists (u "items"), [u "products"], [u "results"].
  split; [reflexivity|]. split; [reflexivity|]. split; [discriminate|].
  constructor; [|constructor]. intros (x & l & E). vm_compute in E. discriminate.
Defined.

(** ** The search API: paging *)

Section Paging.

Variable rt : PyRuntime.
Variable locale : str.
Variable fetch_page : Z -> Result pyval.
Variable page_size : Z.

Local Abbreviation search := (nintendo.search_from rt locale fetch_page page_size).

Lemma search_from_fetches fuel page :
  exists rest, nintendo.fetched (search (S fuel) page) = page :: rest.
Proof.
  simpl. destruct (fetch_page page); [|simpl; eauto].
  destruct (nintendo.normalize_items _ _ _) as [recs [e|]]; [simpl; eauto|].
  destruct (_ <? _); simpl; eauto.
Qed.

Lemma search_from_step fuel page js recs :
  fetch_page page = Ok js ->
  nintendo.normalize_items rt locale (nintendo._extract_items_from_api js)
    = (recs, None) ->
  search (S fuel) page
  = if Z.of_nat (length recs) <? page_size then
      {| nintendo.fetched := [page]; nintendo.yielded := recs;
         nintendo.ended := nintendo.Returned |}
    else
      let rest := search fuel (page + 1) in
      {| nintendo.fetched := page :: nintendo.fetched rest;
         nintendo.yielded := recs ++ nintendo.yielded rest;
         nintendo.ended := nintendo.ended rest |}.
Proof. intros Hf Hn. simpl. rewrite Hf, Hn. reflexivity. Qed.

End Paging.

(** C2, as the code has it. After a page is fetched and its items are
    normalised without an exception, the loop returns, fetching nothing more,
    exactly when fewer than [page_size] of the items gave a record; otherwise
    the next request is for the next page index. *)
Theorem search_stops_on_short_page
    (rt : PyRuntime) (locale : str) (fetch_page : Z -> Result pyval)
    (page_size : Z) (fuel : nat) (page : Z) (js : pyval)
    (recs : list GameRecord.t) :
  fetch_page page = Ok js ->
  nintendo.normalize_items rt locale (nintendo._extract_items_from_api js)
    = (recs, None) ->
  let run := nintendo.search_from rt locale fetch_page page_size (S fuel) page in
  let rest := nintendo.search_from rt locale fetch_page page_size fuel (page + 1) in
  (Z.of_nat (length recs) < page_size ->
     run = {| nintendo.fetched := [page]; nintendo.yielded := recs;
              nintendo.ended := nintendo.Returned |})
  /\ (page_size <= Z.of_nat (length recs) ->
        run = {| nintendo.fetched := page :: nintendo.fetched rest;
                 nintendo.yielded := recs ++ nintendo.yielded rest;
                 nintendo.ended := nintendo.ended rest |}
        /\ (fuel <> O ->
            exists later, nintendo.fetched run = page :: (page + 1) :: later)).
Proof.
  intros Hf Hn. cbv zeta.
  rewrite (search_from_step rt locale fetch_page page_size fuel page js recs Hf Hn).
  split; intros H.
  - apply Z.ltb_lt in H. rewrite H. reflexivity.
  - apply Z.ltb_ge in H. rewrite H. cbv zeta. split; [reflexivity|].
    intros Hfuel. destruct fuel as [|fuel]; [contradiction|].
    destruct (search_from_fetches rt locale fetch_page page_size fuel (page + 1))
      as [later E].
    exists later. cbn [nintendo.fetched]. rewrite E. reflexivity.
Qed.

Lemma search_stops_on_short_page_witness :
  nintendo._iter_search_api ascii_runtime (u "en-US") (fun _ => Ok untitled_page) 1 3
  = {| nintendo.fetched := [0]; nintendo.yielded := [];
       nintendo.ended := nintendo.Returned |}.
Proof.
  refine (proj1 (search_stops_on_short_page ascii_runtime (u "en-US")
                   (fun _ => Ok untitled_page) 1 2 0 untitled_page []
                   eq_refl _) _).
  - vm_compute. reflexivity.
  - simpl. lia.
Defined.

Lemma search_counts_records_not_raw_items :
  Z.of_nat (length (nintendo._extract_items_from_api untitled_page)) = 1
  /\ nintendo.fetched
       (nintendo._iter_search_api ascii_runtime (u "en-US")
          (fun _ => Ok untitled_page) 1 3) = [0].
Proof. split; vm_compute; reflexivity. Qed.

(** ** Listing pages *)

Section ListingPages.

Variable rt : PyRuntime.

Local Abbreviation scripts := (nintendo.jsonld_scripts rt).
Local Abbreviation entries := (nintendo.jsonld_entries rt).

(** A script that is not valid JSON is passed over. *)
Lemma jsonld_scripts_skip_invalid pre post url :
  scripts (pre ++ None :: post) url = scripts (pre ++ post) url.
Proof.
  induction pre as [|[block|] pre IH]; simpl.
  - reflexivity.
  - rewrite IH. reflexivity.
  - exact IH.
Qed.

(** When every valid script yields its records, the page yields them all,
    in page order. *)
Lemma jsonld_scripts_all l url : forall outs,
  Forall2 (fun block out => entries (blocks_of block) url = Ok out)
    (omap id l) outs ->
  scripts l url = Ok (concat outs).
Proof.
  induction l as [|[block|] l IH]; simpl; intros outs H.
  - inversion H; subst. reflexivity.
  - inversion H as [|? out ? outs' Hb Hrest]; subst.
    change (match block with PList l0 => l0 | _ => [block] end)
      with (blocks_of block).
    rewrite Hb. simpl. rewrite (IH _ Hrest). reflexivity.
  - apply IH. exact H.
Qed.

(** *** The objects records derive from *)

Lemma gen_seq_nil {A} (g : Gen A) : gen_seq (gen_of (Ok [])) g = g.
Proof. destruct g. reflexivity. Qed.

Lemma records_of_app a b url :
  records_of rt (a ++ b) url
  = (x ← records_of rt a url; y ← records_of rt b url; Ok (x ++ y)).
Proof.
  induction a as [|o a IH]; simpl.
  - destruct (records_of rt b url); reflexivity.
  - destruct (nintendo._normalize_jsonld_item rt o url) as [[r|]|e]; simpl;
      try reflexivity; rewrite IH;
      destruct (records_of rt a url); simpl; try reflexivity;
      destruct (records_of rt b url); reflexivity.
Qed.

Lemma records_of_one o url :
  records_of rt [o] url
  = (rec ← nintendo._normalize_jsonld_item rt o url;
     Ok (match rec with Some r => [r] | None => [] end)).
Proof.
  simpl. destruct (nintendo._normalize_jsonld_item rt o url) as [[r|]|e];
    reflexivity.
Qed.

Lemma has_product_type_eq o :
  has_product_type rt o = nintendo.is_product_type rt (nintendo.type_of o).
Proof. reflexivity. Qed.

Lemma jsonld_graph_objects graph url :
  nintendo.jsonld_graph rt graph url = records_of rt (graph_objects rt graph) url.
Proof.
  unfold graph_objects.
  induction graph as [|g graph IH]; [reflexivity|].
  rewrite bind_cons, records_of_app, <- IH.
  destruct g as [| | | | | |d]; simpl;
    try (destruct (nintendo.jsonld_graph rt graph url); reflexivity).
  rewrite has_product_type_eq.
  destruct (nintendo.is_product_type rt (nintendo.type_of d)).
  - rewrite records_of_one. reflexivity.
  - reflexivity.
Qed.

Lemma jsonld_entry_objects b url :
  nintendo.jsonld_entry rt b url = records_of rt (block_objects rt b) url.
Proof.
  destruct b as [| | | | | |d]; try reflexivity.
  unfold nintendo.jsonld_entry, block_objects. rewrite has_product_type_eq.
  destruct (Py.dict_has d (u "@graph")).
  - destruct (Py.dict_get d (u "@graph"));
      try (destruct (nintendo.is_product_type rt (nintendo.type_of d));
           [rewrite records_of_one|]; reflexivity).
    apply jsonld_graph_objects.
  - destruct (nintendo.is_product_type rt (nintendo.type_of d));
      [rewrite records_of_one|]; reflexivity.
Qed.

Lemma jsonld_entries_objects blocks url :
  entries blocks url = records_of rt (b ← blocks; block_objects rt b) url.
Proof.
  induction blocks as [|b blocks IH]; [reflexivity|].
  rewrite bind_cons, records_of_app, <- IH, <- jsonld_entry_objects.
  reflexivity.
Qed.

Lemma jsonld_scripts_objects l url :
  scripts l url
  = records_of rt (block ← omap id l; script_objects rt block) url.
Proof.
  induction l as [|[block|] l IH]; [reflexivity| |exact IH].
  change (omap id (Some block :: l)) with (block :: omap id l).
  rewrite bind_cons, records_of_app, <- IH. unfold script_objects.
  rewrite <- jsonld_entries_objects. reflexivity.
Qed.

Lemma records_of_all objs url : forall results,
  Forall2 (fun o r => nintendo._normalize_jsonld_item rt o url = Ok r)
    objs results ->
  records_of rt objs url = Ok (omap id results).
Proof.
  induction objs as [|o objs IH]; intros results H; inversion H; subst.
  - reflexivity.
  - simpl. match goal with E : _ = Ok _ |- _ => rewrite E end.
    simpl. rewrite (IH _ ltac:(eassumption)). destruct y; reflexivity.
Qed.

Lemma records_of_raise pre o post e url :
  Forall (fun o' => exists r, nintendo._normalize_jsonld_item rt o' url = Ok r)
    pre ->
  nintendo._normalize_jsonld_item rt o url = Raise e ->
  records_of rt (pre ++ o :: post) url = Raise e.
Proof.
  intros Hpre Ho. induction Hpre as [|o' pre [r Hr] _ IH]; simpl.
  - rewrite Ho. reflexivity.
  - rewrite Hr. simpl. rewrite IH. reflexivity.
Qed.

End ListingPages.

(** C4, as the code has it. On a page whose [__NEXT_DATA__] script is not
    valid JSON the embedded-data parser returns no record and raises
    nothing, and the linked-data parser still runs: a script that is not
    valid JSON changes nothing, and the records derive from the Product and
    VideoGame objects of the valid scripts, in page order. When normalising
    each of these objects raises nothing, the page yields exactly their
    records, in order. When normalising one of them raises, nothing catches
    the exception: it ends the page and no record of that page is
    yielded. *)
Theorem invalid_embedded_json_is_skipped
    (rt : PyRuntime) (locale : str) (html : nintendo.page) (url : str) :
  nintendo.next_data html = Some None ->
  nintendo._parse_next_data rt locale html url = Ok []
  /\ (forall pre post,
        nintendo.ld_json html = pre ++ None :: post ->
        nintendo._iter_list_page rt locale html url
        = nintendo._iter_list_page rt locale (with_scripts html (pre ++ post)) url)
  /\ (forall results,
        Forall2 (fun o r => nintendo._normalize_jsonld_item rt o url = Ok r)
          (linked_objects rt html) results ->
        nintendo._iter_list_page rt locale html url = (omap id results, None))
  /\ (forall pre o post e,
        linked_objects rt html = pre ++ o :: post ->
        Forall
          (fun o' => exists r, nintendo._normalize_jsonld_item rt o' url = Ok r)
          pre ->
        nintendo._normalize_jsonld_item rt o url = Raise e ->
        nintendo._iter_list_page rt locale html url = ([], Some e)).
Proof.
  intros Hnext.
  assert (H1 : nintendo._parse_next_data rt locale html url = Ok [])
    by (unfold nintendo._parse_next_data; rewrite Hnext; reflexivity).
  assert (H2 : forall page,
             nintendo.next_data page = Some None ->
             nintendo._iter_list_page rt locale page url
             = gen_of (nintendo.jsonld_scripts rt (nintendo.ld_json page) url)).
  { intros page Hp. unfold nintendo._iter_list_page, nintendo._parse_next_data,
      nintendo._parse_jsonld. rewrite Hp. apply gen_seq_nil. }
  split; [exact H1|]. split; [|split].
  - intros pre post E. rewrite (H2 html Hnext), E.
    rewrite (H2 (with_scripts html (pre ++ post)) Hnext).
    cbn [with_scripts nintendo.ld_json].
    rewrite jsonld_scripts_skip_invalid. reflexivity.
  - intros results H. rewrite (H2 html Hnext), jsonld_scripts_objects.
    fold (linked_objects rt html).
    rewrite (records_of_all rt _ url results H). reflexivity.
  - intros pre o post e E Hpre Ho.
    rewrite (H2 html Hnext), jsonld_scripts_objects.
    fold (linked_objects rt html).
    rewrite E, (records_of_raise rt pre o post e url Hpre Ho). reflexivity.
Qed.

(** A valid block whose normalisation raises takes the records of the other
    valid blocks of the page with it. *)
Lemma linked_data_exception_escapes :
  nintendo.next_data raising_page = Some None
  /\ nintendo._iter_list_page ascii_runtime (u "en-US")
       (with_scripts raising_page [Some super_game_block]) games_url
     = ([super_game_record games_url], None)
  /\ nintendo._iter_list_page ascii_runtime (u "en-US") raising_page games_url
     = ([], Some AttributeError).
Proof.
  split; [reflexivity|]. split; vm_compute; reflexivity.
Qed.

Lemma super_game_create (rt : PyRuntime) (url href : str) :
  http_url rt nintendo.PLACEHOLDER = Some nintendo.PLACEHOLDER ->
  http_url rt url = Some href ->
  GameRecord.create rt (u "nintendo") (u "Super Game:") (u "$29.99")
    nintendo.PLACEHOLDER url None [u "Switch"] None (Some (u "game"))
  = Ok (super_game_record href).
Proof.
  intros Himg Hurl. unfold GameRecord.create.
  change (is_literal stores (u "nintendo")) with true. cbv iota.
  rewrite Himg, Hurl. cbn [from_option].
  vm_compute. reflexivity.
Qed.

Lemma super_game_item (rt : PyRuntime) (b : list (str * pyval)) (url : str) :
  PDict b = super_game_block ->
  nintendo._normalize_jsonld_item rt b url
  = (rec ← GameRecord.create rt (u "nintendo") (u "Super Game:") (u "$29.99")
             nintendo.PLACEHOLDER url None [u "Switch"] None (Some (u "game"));
     Ok (Some rec)).
Proof. intros [= ->]. vm_compute. reflexivity. Qed.

Lemma super_game_entries (rt : PyRuntime) (url href : str) :
  http_url rt nintendo.PLACEHOLDER = Some nintendo.PLACEHOLDER ->
  http_url rt url = Some href ->
  nintendo.jsonld_entries rt (blocks_of super_game_block) url
  = Ok [super_game_record href].
Proof.
  intros Himg Hurl.
  change (blocks_of super_game_block) with [super_game_block].
  unfold super_game_block at 1.
  cbn [nintendo.jsonld_entries nintendo.jsonld_entry].
  match goal with
  | |- context [Py.dict_has ?d (u "@graph")] =>
      change (Py.dict_has d (u "@graph")) with false;
      change (nintendo.is_product_type rt (nintendo.type_of d)) with true;
      cbv iota;
      rewrite (super_game_item rt d url eq_refl)
  end.
  rewrite (super_game_create rt url href Himg Hurl). reflexivity.
Qed.

(** C1, as the code has it. A listing page with no embedded data and one
    linked-data block of type VideoGame, name Super Game(TM): Deluxe Edition,
    price 29.99 in USD and no image yields exactly one record; its price is
    $29.99, its image the placeholder, and its name Super Game followed by
    the colon, which the noise stripping leaves in place. *)
Theorem super_game_listing_page
    (rt : PyRuntime) (locale : str) (html : nintendo.page) (url href : str) :
  nintendo.next_data html = None ->
  nintendo.ld_json html = [Some super_game_block] ->
  http_url rt nintendo.PLACEHOLDER = Some nintendo.PLACEHOLDER ->
  http_url rt url = Some href ->
  exists rec,
    nintendo._iter_list_page rt locale html url = ([rec], None)
    /\ rec = super_game_record href
    /\ GameRecord.name rec = u "Super Game:"
    /\ GameRecord.price rec = u "$29.99"
    /\ GameRecord.image rec = nintendo.PLACEHOLDER.
Proof.
  intros Hnext Hld Himg Hurl. exists (super_game_record href).
  split; [|repeat split].
  unfold nintendo._iter_list_page, nintendo._parse_next_data,
    nintendo._parse_jsonld.
  rewrite Hnext, Hld.
  rewrite (jsonld_scripts_all rt _ url [[super_game_record href]]).
  - reflexivity.
  - repeat constructor. apply super_game_entries; assumption.
Qed.

Lemma super_game_listing_page_witness :
  exists rec,
    nintendo._iter_list_page ascii_runtime (u "en-US") super_game_page games_url
    = ([rec], None)
    /\ rec = super_game_record games_url
    /\ GameRecord.name rec = u "Super Game:"
    /\ GameRecord.price rec = u "$29.99"
    /\ GameRecord.image rec = nintendo.PLACEHOLDER.
Proof.
  apply (super_game_listing_page ascii_runtime (u "en-US") super_game_page
           games_url games_url); reflexivity.
Defined.

Lemma super_game_name_keeps_colon :
  exists rec,
    nintendo._iter_list_page ascii_runtime (u "en-US") super_game_page games_url
    = ([rec], None)
    /\ GameRecord.name rec <> u "Super Game".
Proof.
  exists (super_game_record games_url). split; [vm_compute; reflexivity|].
  vm_compute. discriminate.
Qed.

Lemma invalid_embedded_json_is_skipped_witness :
  nintendo._parse_next_data ascii_runtime (u "en-US") graph_page games_url = Ok []
  /\ nintendo._iter_list_page ascii_runtime (u "en-US") graph_page games_url
     = ([super_game_record games_url], None)
  /\ nintendo._iter_list_page ascii_runtime (u "en-US") raising_page games_url
     = ([], Some AttributeError).
Proof.
  pose proof (invalid_embedded_json_is_skipped ascii_runtime (u "en-US")
                graph_page games_url eq_refl) as (H1 & _ & H3 & _).
  pose proof (invalid_embedded_json_is_skipped ascii_runtime (u "en-US")
                raising_page games_url eq_refl) as (_ & _ & _ & H4).
  split; [exact H1|]. split.
  - apply (H3 [Some (super_game_record games_url)]).
    assert (E : linked_objects ascii_runtime graph_page
                = [super_game_fields])
      by (vm_compute; reflexivity).
    rewrite E. constructor; [vm_compute; reflexivity | constructor].
  - apply (H4 [super_game_fields]
              string_offers_fields
              [] AttributeError).
    + vm_compute. reflexivity.
    + constructor; [|constructor].
      exists (Some (super_game_record games_url)). vm_compute. reflexivity.
    + vm_compute. reflexivity.
Defined.

Lemma clean_title_idempotent_edition_noise_conditionally_witness :
  (normalize.strip_edition_noise ascii_runtime (u "Deluxe Edition")
   = normalize.clean_title (u "Deluxe Edition")
   /\ normalize.strip_edition_noise ascii_runtime
        (normalize.strip_edition_noise ascii_runtime (u "Deluxe Edition"))
      = normalize.strip_edition_noise ascii_runtime (u "Deluxe Edition"))
  /\ normalize.strip_edition_noise ascii_runtime
       (normalize.strip_edition_noise ascii_runtime
          (u "Halo: Infinite – Deluxe Edition"))
     = normalize.strip_edition_noise ascii_runtime
         (u "Halo: Infinite – Deluxe Edition").
Proof.
  split.
  - apply (proj1 (proj2 (clean_title_idempotent_edition_noise_conditionally
                           ascii_runtime (u "Deluxe Edition")))).
    vm_compute. reflexivity.
  - apply (proj2 (proj2 (proj2
             (clean_title_idempotent_edition_noise_conditionally
                ascii_runtime (u "Halo: Infinite – Deluxe Edition")))));
      vm_compute; reflexivity.
Defined.


Lemma platforms_entries_stripped_nonempty_witness :
  entries_stripped sample_platforms (GameRecord.platforms sample_record)
  /\ entries_stripped sample_platforms (LetterItem.platforms sample_item).
Proof.
  split.
  - apply (proj1 (platforms_entries_stripped_nonempty ascii_runtime)
             (u "nintendo") (u "Tetris") (u "Free") games_url games_url None
             sample_platforms None None sample_record).
    vm_compute. reflexivity.
  - apply (proj2 (platforms_entries_stripped_nonempty ascii_runtime)
             (u "Tetris") None (u "Free") games_url games_url None
             sample_platforms None sample_item).
    vm_compute. reflexivity.
Defined.

(** * Properties of the code beyond the claims *)

(** ** normalize.py *)

(** X1. A cleaned title holds none of the glyphs (TM), (R), (C), neither
    starts nor ends with whitespace, and has no two whitespace characters
    side by side. *)
Theorem clean_title_shape (x : str) :
  let y := normalize.clean_title x in
  Forall (fun c => is_mark c = false) y
  /\ lclean is_space y /\ rclean is_space y /\ no_space_pair y = true.
Proof.
  destruct (clean_title_clean x) as (Hm & Hl & Hr & Hp). cbv zeta in *.
  split; [|auto].
  eapply Forall_impl; [exact Hm|]. intros c Hc. unfold is_mark.
  apply negb_true_iff. exact Hc.
Qed.

Lemma sub_nil p repl : Re.sub p repl [] = [].
Proof. reflexivity. Qed.

(** X2. Stripping the edition noise never empties a title: the result is
    empty only when the cleaned title itself is empty. *)
Theorem strip_edition_noise_empty_iff (rt : PyRuntime) (x : str) :
  normalize.strip_edition_noise rt x = [] <-> normalize.clean_title x = [].
Proof.
  unfold normalize.strip_edition_noise. cbv zeta.
  destruct (null _) eqn:Et; [tauto|].
  split.
  - intros H. rewrite H in Et. discriminate.
  - intros H. rewrite H in Et. discriminate.
Qed.

Lemma strip_edition_noise_cleans rt (x : str) :
  normalize.strip_edition_noise rt (normalize.clean_title x)
  = normalize.strip_edition_noise rt x.
Proof.
  unfold normalize.strip_edition_noise. cbv zeta.
  rewrite clean_title_idempotent. reflexivity.
Qed.

(** X3. Cleaning a title before stripping its edition noise, as both
    normalisers of the adapter do, changes nothing: [strip_edition_noise]
    cleans the title itself. *)
Theorem strip_edition_noise_of_clean_title (rt : PyRuntime) (x : str) :
  normalize.strip_edition_noise rt (normalize.clean_title x)
  = normalize.strip_edition_noise rt x.
Proof. apply strip_edition_noise_cleans. Qed.

Lemma format_2f_nonempty x : Float.format_2f x <> [].
Proof.
  destruct x as [s|s| |s m e]; simpl.
  - destruct s; discriminate.
  - destruct s; discriminate.
  - discriminate.
  - intros H. apply app_eq_nil in H as [_ H].
    apply app_eq_nil in H as [_ H]. discriminate.
Qed.

(** X4. With a currency that is [None] or a [str], [price_to_string] raises
    nothing and never returns the empty string, whatever the amount and the
    flags. *)
Theorem price_to_string_total_on_str_currency
    (rt : PyRuntime) (amount : option Float.float) (currency : pyval)
    (flags : option str) :
  (currency = PNone \/ exists c, currency = PStr c) ->
  exists s, normalize.price_to_string rt amount currency flags = Ok s /\ s <> [].
Proof.
  intros Hc. unfold normalize.price_to_string.
  destruct (default [] flags) as [|f fs] eqn:Ef; simpl.
  - destruct amount as [a|]; [|eexists; split; [reflexivity|discriminate]].
    destruct Hc as [->|[c ->]]; [eexists; split; [reflexivity|discriminate]|].
    eexists. split; [reflexivity|].
    intros H. apply app_eq_nil in H as [_ H]. exact (format_2f_nonempty a H).
  - eexists. split; [reflexivity|discriminate].
Qed.

Lemma price_to_string_total_on_str_currency_witness :
  exists s,
    normalize.price_to_string ascii_runtime (Some f19_99) (PStr (u "eur")) None
    = Ok s /\ s <> [].
Proof.
  apply (price_to_string_total_on_str_currency ascii_runtime (Some f19_99)
           (PStr (u "eur")) None).
  right. exists (u "eur"). reflexivity.
Defined.

(** X5. With an amount, no flags to return and a currency that is neither
    [None] nor a [str], [price_to_string] raises [AttributeError]. *)
Theorem price_to_string_raises_on_other_currency
    (rt : PyRuntime) (a : Float.float) (currency : pyval) (flags : option str) :
  default [] flags = [] ->
  currency <> PNone -> (forall c, currency <> PStr c) ->
  normalize.price_to_string rt (Some a) currency flags = Raise AttributeError.
Proof.
  intros Hf Hn Hs. unfold normalize.price_to_string. rewrite Hf. simpl.
  destruct currency; try reflexivity; [contradiction | exfalso; eapply Hs; reflexivity].
Qed.

Lemma price_to_string_raises_on_other_currency_witness :
  normalize.price_to_string ascii_runtime (Some f19_99) (PInt 840) None
  = Raise AttributeError.
Proof.
  apply (price_to_string_raises_on_other_currency ascii_runtime f19_99
           (PInt 840) None); [reflexivity | discriminate | discriminate].
Defined.

Lemma all_ascii_strip (s : str) : all_ascii s = true -> all_ascii (strip s) = true.
Proof.
  unfold all_ascii. rewrite !forallb_forall. intros H c Hc.
  apply H. apply list_elem_of_In. apply (elem_of_strip_by is_space).
  apply list_elem_of_In. exact Hc.
Qed.

(** X6. For a name of ASCII characters the letter bucket is one of the 27
    buckets: a single letter a-z, or the underscore. *)
Theorem letter_bucket_of_ascii_name (rt : PyRuntime) (name : str) :
  all_ascii name = true -> is_bucket (normalize.letter_bucket rt name).
Proof.
  intros Ha. apply all_ascii_strip in Ha.
  unfold normalize.letter_bucket. cbv zeta.
  destruct (strip name) as [|c r]; [left; reflexivity|].
  change (take 1 (c :: r)) with [c].
  simpl in Ha. apply andb_true_iff in Ha as [Hc _].
  rewrite (lower_ascii1 rt c Hc), le_a_z.
  destruct (is_ascii_lower (ascii_lower c)) eqn:E.
  - right. eauto.
  - left. reflexivity.
Qed.

Lemma letter_bucket_of_ascii_name_witness :
  is_bucket (normalize.letter_bucket ascii_runtime (u "  Zelda II")).
Proof.
  apply (letter_bucket_of_ascii_name ascii_runtime (u "  Zelda II")).
  reflexivity.
Defined.

(** ** models.py *)

Lemma strip_fixed (s : str) :
  lclean is_space s -> rclean is_space s -> strip s = s.
Proof. apply strip_by_id. Qed.

Lemma strip_strip (s : str) : strip (strip s) = strip s.
Proof. apply strip_by_idempotent. Qed.

Lemma price_nonempty_shape (v : str) :
  let p := GameRecord._price_nonempty v in
  p <> [] /\ lclean is_space p /\ rclean is_space p
  /\ (strip v = [] -> p = u "Unavailable")
  /\ (strip v <> [] -> p = strip v).
Proof.
  unfold GameRecord._price_nonempty. cbv zeta.
  pose proof (strip_by_lclean is_space v) as Hl.
  pose proof (strip_by_rclean is_space v) as Hr.
  fold (strip v) in Hl, Hr.
  destruct (strip v) as [|c r] eqn:E; cbn [null].
  - split; [discriminate|]. split; [reflexivity|]. split; [reflexivity|].
    split; [reflexivity | congruence].
  - split; [discriminate|]. split; [exact Hl|]. split; [exact Hr|].
    split; [discriminate | reflexivity].
Qed.

Lemma GameRecord_create_fields rt store name price image href uuid v rating type g :
  GameRecord.create rt store name price image href uuid v rating type = Ok g ->
  GameRecord.store g = store /\ GameRecord.name g = name
  /\ GameRecord.price g = GameRecord._price_nonempty price
  /\ http_url rt image = Some (GameRecord.image g)
  /\ http_url rt href = Some (GameRecord.href g)
  /\ GameRecord.uuid g = uuid
  /\ GameRecord.rating g = GameRecord._rating_lower rt rating
  /\ GameRecord.type g = type
  /\ is_literal stores store = true
  /\ from_option (is_literal Rating) true rating = true.
Proof.
  unfold GameRecord.create.
  destruct (is_literal stores store); [|discriminate].
  destruct (http_url rt image); [|discriminate].
  destruct (http_url rt href); [|discriminate].
  destruct (from_option _ _ rating); [|discriminate].
  intros [= <-]. simpl. repeat split.
Qed.

Lemma LetterItem_create_fields rt name type price image href uuid v rating l :
  LetterItem.create rt name type price image href uuid v rating = Ok l ->
  LetterItem.name l = name /\ LetterItem.type l = type
  /\ LetterItem.price l = LetterItem._price_nonempty price
  /\ http_url rt image = Some (LetterItem.image l)
  /\ http_url rt href = Some (LetterItem.href l)
  /\ LetterItem.uuid l = uuid
  /\ LetterItem.rating l = LetterItem._rating_lower rt rating
  /\ from_option (is_literal Rating) true rating = true.
Proof.
  unfold LetterItem.create.
  destruct (http_url rt image); [|discriminate].
  destruct (http_url rt href); [|discriminate].
  destruct (from_option _ _ rating); [|discriminate].
  intros [= <-]. simpl. repeat split.
Qed.

(** X7. The price of every constructed [GameRecord] and [LetterItem] is the
    given price stripped of surrounding whitespace, or Unavailable when
    nothing is left: it is never empty and has no whitespace at its ends. *)
Theorem constructed_price_nonempty (rt : PyRuntime) :
  (forall store name price image href uuid v rating type g,
     GameRecord.create rt store name price image href uuid v rating type = Ok g ->
     let p := GameRecord.price g in
     p <> [] /\ lclean is_space p /\ rclean is_space p
     /\ (strip price = [] -> p = u "Unavailable")
     /\ (strip price <> [] -> p = strip price))
  /\ (forall name type price image href uuid v rating l,
        LetterItem.create rt name type price image href uuid v rating = Ok l ->
        let p := LetterItem.price l in
        p <> [] /\ lclean is_space p /\ rclean is_space p
        /\ (strip price = [] -> p = u "Unavailable")
        /\ (strip price <> [] -> p = strip price)).
Proof.
  split.
  - intros * H. apply GameRecord_create_fields in H as (_ & _ & Hp & _).
    cbv zeta. rewrite Hp. apply price_nonempty_shape.
  - intros * H. apply LetterItem_create_fields in H as (_ & _ & Hp & _).
    cbv zeta. rewrite Hp. apply price_nonempty_shape.
Qed.

Lemma constructed_price_nonempty_witness :
  GameRecord.price sample_record = u "Free"
  /\ LetterItem.price sample_item = u "Free".
Proof.
  split.
  - refine (proj2 (proj2 (proj2 (proj2
      (proj1 (constructed_price_nonempty ascii_runtime)
         (u "nintendo") (u "Tetris") (u " Free ") games_url games_url None
         sample_platforms None None sample_record _)))) _);
      [vm_compute; reflexivity | vm_compute; discriminate].
  - refine (proj2 (proj2 (proj2 (proj2
      (proj2 (constructed_price_nonempty ascii_runtime)
         (u "Tetris") None (u " Free ") games_url games_url None
         sample_platforms None sample_item _)))) _);
      [vm_compute; reflexivity | vm_compute; discriminate].
Defined.

Lemma is_literal_elem allowed v : is_literal allowed v = true -> v ∈ allowed.
Proof.
  unfold is_literal. intros H. apply existsb_exists in H as (x & Hx & E).
  apply bool_decide_eq_true_1 in E. subst x. apply list_elem_of_In. exact Hx.
Qed.

Lemma lower_Rating rt r : r ∈ Rating -> lower rt r = r.
Proof.
  unfold Rating. rewrite !elem_of_cons, elem_of_nil.
  intros [->|[->|[->|[->|[->|[->|[]]]]]]]; vm_compute; reflexivity.
Qed.

Lemma rating_lower_literal rt rating :
  from_option (is_literal Rating) true rating = true ->
  lower rt <$> rating = rating
  /\ (rating = None \/ exists r, rating = Some r /\ r ∈ Rating).
Proof.
  destruct rating as [r|]; cbn [from_option fmap option_fmap option_map]; [|auto].
  intros H. apply is_literal_elem in H.
  rewrite (lower_Rating rt r H). eauto.
Qed.

(** X8. The rating of every constructed [GameRecord] and [LetterItem] is
    [None] or one of the six ratings, unchanged: a rating in any other
    spelling, upper case included, fails validation before [_rating_lower]
    runs. *)
Theorem constructed_rating_literal (rt : PyRuntime) :
  (forall store name price image href uuid v rating type g,
     GameRecord.create rt store name price image href uuid v rating type = Ok g ->
     GameRecord.rating g = rating
     /\ (rating = None \/ exists r, rating = Some r /\ r ∈ Rating))
  /\ (forall name type price image href uuid v rating l,
        LetterItem.create rt name type price image href uuid v rating = Ok l ->
        LetterItem.rating l = rating
        /\ (rating = None \/ exists r, rating = Some r /\ r ∈ Rating)).
Proof.
  split.
  - intros * H.
    apply GameRecord_create_fields in H as (_ & _ & _ & _ & _ & _ & Hr & _ & _ & Hl).
    destruct (rating_lower_literal rt rating Hl) as [E Hin].
    rewrite Hr. unfold GameRecord._rating_lower. auto.
  - intros * H.
    apply LetterItem_create_fields in H as (_ & _ & _ & _ & _ & _ & Hr & Hl).
    destruct (rating_lower_literal rt rating Hl) as [E Hin].
    rewrite Hr. unfold LetterItem._rating_lower. auto.
Qed.

Lemma constructed_rating_literal_witness :
  GameRecord.rating sample_record = None /\ LetterItem.rating sample_item = None.
Proof.
  split.
  - refine (proj1 (proj1 (constructed_rating_literal ascii_runtime)
              (u "nintendo") (u "Tetris") (u " Free ") games_url games_url None
              sample_platforms None None sample_record _)).
    vm_compute. reflexivity.
  - refine (proj1 (proj2 (constructed_rating_literal ascii_runtime)
              (u "Tetris") None (u " Free ") games_url games_url None
              sample_platforms None sample_item _)).
    vm_compute. reflexivity.
Defined.

(** An upper-case rating is refused. *)
Lemma rating_upper_case_refused :
  GameRecord.create ascii_runtime (u "nintendo") (u "Tetris") (u "Free")
    games_url games_url None [] (Some (u "Teen")) None
  = Raise ValidationError.
Proof. vm_compute. reflexivity. Qed.

Section Revalidation.

Variable rt : PyRuntime.

Lemma platforms_loop_fixed l : forall seen,
  Forall (fun q => q <> [] /\ strip q = q) l ->
  NoDup (lower rt <$> l) ->
  (forall q, q ∈ l -> lower rt q ∉ seen) ->
  platforms_loop rt l seen [] = l.
Proof.
  induction l as [|q l IH]; intros seen Hs Hd Hseen; [reflexivity|].
  rewrite kept_cons.
  inversion Hs as [|? ? [Hne Hq] Hs']; subst.
  rewrite fmap_cons in Hd. apply NoDup_cons in Hd as [Hq' Hd].
  rewrite Hq.
  destruct q as [|c q0]; [contradiction|]. simpl null. simpl negb.
  rewrite bool_decide_eq_true_2 by (apply Hseen; left).
  simpl. f_equal. apply IH; [exact Hs' | exact Hd |].
  intros q1 Hq1. rewrite not_elem_of_union, not_elem_of_singleton.
  split; [|apply Hseen; right; exact Hq1].
  intros E. apply Hq'. rewrite <- E.
  apply list_elem_of_fmap. eauto.
Qed.

Lemma platforms_clean_idempotent v :
  platforms_loop rt (platforms_loop rt v ∅ []) ∅ [] = platforms_loop rt v ∅ [].
Proof.
  apply platforms_loop_fixed.
  - apply Forall_forall. intros q Hq.
    apply kept_fresh in Hq as (_ & Hne & p & _ & ->).
    split; [exact Hne | apply strip_strip].
  - apply kept_NoDup.
  - intros q _. apply not_elem_of_empty.
Qed.

Lemma price_nonempty_idempotent v :
  GameRecord._price_nonempty (GameRecord._price_nonempty v)
  = GameRecord._price_nonempty v.
Proof.
  destruct (price_nonempty_shape v) as (Hne & Hl & Hr & _). cbv zeta in *.
  unfold GameRecord._price_nonempty at 1. cbv zeta.
  rewrite (strip_fixed _ Hl Hr).
  destruct (GameRecord._price_nonempty v); [contradiction|reflexivity].
Qed.

End Revalidation.

(** X9. A [GameRecord] maps one to one to a [LetterItem]: a letter item
    constructed from the fields of a constructed record has the same name,
    type, price, uuid, platforms and rating, validation changing none of
    them a second time. *)
Theorem letter_item_of_game_record
    (rt : PyRuntime) (store name price image href : str) (uuid : option str)
    (v : list str) (rating type : option str) (g : GameRecord.t)
    (l : LetterItem.t) :
  GameRecord.create rt store name price image href uuid v rating type = Ok g ->
  LetterItem.create rt (GameRecord.name g) (GameRecord.type g)
    (GameRecord.price g) (GameRecord.image g) (GameRecord.href g)
    (GameRecord.uuid g) (GameRecord.platforms g) (GameRecord.rating g) = Ok l ->
  LetterItem.name l = GameRecord.name g
  /\ LetterItem.type l = GameRecord.type g
  /\ LetterItem.price l = GameRecord.price g
  /\ LetterItem.uuid l = GameRecord.uuid g
  /\ LetterItem.platforms l = GameRecord.platforms g
  /\ LetterItem.rating l = GameRecord.rating g.
Proof.
  intros Hg Hl.
  pose proof (GameRecord_create_platforms rt _ _ _ _ _ _ _ _ _ _ Hg) as Hgp.
  pose proof (LetterItem_create_platforms rt _ _ _ _ _ _ _ _ _ Hl) as Hlp.
  apply GameRecord_create_fields in Hg
    as (_ & _ & Hp & _ & _ & _ & Hr & _ & _ & Hlit).
  apply LetterItem_create_fields in Hl
    as (Hn' & Ht' & Hp' & _ & _ & Hu' & Hr' & _).
  destruct (rating_lower_literal rt rating Hlit) as [E _].
  split; [exact Hn'|]. split; [exact Ht'|]. split; [|split; [exact Hu'|split]].
  - rewrite Hp', Hp. apply price_nonempty_idempotent.
  - rewrite Hlp, Hgp. apply platforms_clean_idempotent.
  - rewrite Hr', Hr. unfold LetterItem._rating_lower, GameRecord._rating_lower.
    rewrite E. exact E.
Qed.

Lemma letter_item_of_game_record_witness :
  LetterItem.name sample_item = GameRecord.name sample_record
  /\ LetterItem.type sample_item = GameRecord.type sample_record
  /\ LetterItem.price sample_item = GameRecord.price sample_record
  /\ LetterItem.uuid sample_item = GameRecord.uuid sample_record
  /\ LetterItem.platforms sample_item = GameRecord.platforms sample_record
  /\ LetterItem.rating sample_item = GameRecord.rating sample_record.
Proof.
  apply (letter_item_of_game_record ascii_runtime (u "nintendo") (u "Tetris")
           (u " Free ") games_url games_url None sample_platforms None None
           sample_record sample_item); vm_compute; reflexivity.
Defined.

(** ** dedupe.py *)

Section KeyStrings.

Variable rt : PyRuntime.

Local Abbreviation key_string := (Forall (fun c => is_key_char c = true)).

Lemma key_char_facts c :
  is_key_char c = true ->
  is_ascii c = true /\ is_word rt c = true /\ ascii_lower c = c
  /\ is_space c = false /\ is_mark c = false
  /\ mem (u " -–—") c = false.
Proof.
  unfold is_key_char, is_ascii_lower, is_ascii_digit, in_range. intros H.
  assert (Hr : 97 <= c <= 122 \/ 48 <= c <= 57) by lia.
  assert (Ha : is_ascii c = true) by (unfold is_ascii; lia).
  split; [exact Ha|]. split; [|split; [|split; [|split]]].
  - unfold is_word. rewrite Ha.
    unfold is_ascii_lower, is_ascii_upper, is_ascii_digit, in_range. lia.
  - unfold ascii_lower, is_ascii_upper, in_range.
    destruct ((65 <=? c) && (c <=? 90)) eqn:E; [lia|reflexivity].
  - unfold is_space, in_range. lia.
  - unfold is_mark. lia.
  - change (u " -–—") with [32; 45; 8211; 8212]. unfold mem. simpl. lia.
Qed.

Lemma key_string_lower k : key_string k -> lower rt k = k.
Proof.
  intros H. unfold lower.
  assert (Ha : all_ascii k = true).
  { unfold all_ascii. apply forallb_forall. intros c Hc.
    rewrite Forall_forall in H. apply list_elem_of_In in Hc.
    apply (key_char_facts c (H c Hc)). }
  rewrite Ha. induction H as [|c k Hc _ IH]; [reflexivity|].
  simpl in Ha. apply andb_true_iff in Ha as [_ Ha]. simpl.
  destruct (key_char_facts c Hc) as (_ & _ & -> & _). rewrite (IH Ha). reflexivity.
Qed.

Lemma key_string_lclean (p : Z -> bool) k :
  (forall c, is_key_char c = true -> p c = false) ->
  key_string k -> lclean p k /\ rclean p k.
Proof.
  intros Hp H. split.
  - destruct H as [|c k Hc _]; [exact I|]. simpl. auto.
  - unfold rclean. destruct (last k) as [c|] eqn:E; [|exact I].
    apply Hp. rewrite Forall_forall in H. apply H.
    apply last_Some in E as [l' ->]. apply elem_of_app. right. left.
Qed.

Lemma key_string_no_space_pair k : key_string k -> no_space_pair k = true.
Proof.
  induction 1 as [|c k Hc _ IH]; [reflexivity|].
  destruct k as [|d k']; [reflexivity|].
  change (negb (is_space c && is_space d) && no_space_pair (d :: k') = true).
  destruct (key_char_facts c Hc) as (_ & _ & _ & -> & _). exact IH.
Qed.

Lemma key_string_clean_title k : key_string k -> normalize.clean_title k = k.
Proof.
  intros H. apply clean_title_fixed.
  - eapply Forall_impl; [exact H|]. intros c Hc.
    destruct (key_char_facts c Hc) as (_ & _ & _ & _ & Hm & _).
    unfold is_mark in Hm. rewrite Hm. reflexivity.
  - apply key_string_lclean; [|exact H]. intros c Hc. apply (key_char_facts c Hc).
  - apply key_string_lclean; [|exact H]. intros c Hc. apply (key_char_facts c Hc).
  - apply key_string_no_space_pair. exact H.
Qed.

(** Inside a word the pattern finds no boundary to start at. *)
Lemma words_no_boundary alts prev s :
  Re.boundary (is_word rt) prev (head s) = false ->
  Re.words (is_word rt) alts prev s = None.
Proof.
  intros H. induction alts as [|w alts IH]; [reflexivity|].
  simpl. rewrite H, andb_false_r. exact IH.
Qed.

Lemma ci_prefix_length w s : Re.ci_prefix w s = true -> (length w <= length s)%nat.
Proof.
  revert s. induction w as [|x w IH]; intros s H; simpl; [lia|].
  destruct s as [|y s]; [discriminate|]. simpl in H.
  apply andb_true_iff in H as [_ H]. apply IH in H. simpl. lia.
Qed.

(** A match in a string of word characters runs to its end. *)
Lemma words_to_the_end alts prev s m :
  Forall (fun c => is_word rt c = true) s ->
  Re.words (is_word rt) alts prev s = Some (S m) ->
  drop (S m) s = [].
Proof.
  intros Hs. induction alts as [|w alts IH]; [discriminate|].
  simpl.
  destruct (Re.ci_prefix w s && Re.boundary (is_word rt) prev (head s)
            && Re.boundary (is_word rt) (s !! pred (length w)) (s !! length w))
    eqn:E; [|exact IH].
  intros [= Hn]. apply andb_true_iff in E as [E Hb].
  apply andb_true_iff in E as [Hp _]. apply ci_prefix_length in Hp.
  rewrite Hn in Hb, Hp. simpl pred in Hb.
  apply drop_ge.
  destruct (s !! S m) as [d|] eqn:Ed; [|apply lookup_ge_None in Ed; exact Ed].
  exfalso.
  destruct (lookup_lt_is_Some_2 s m ltac:(lia)) as [c Ec].
  rewrite Ec in Hb. unfold Re.boundary in Hb. simpl in Hb.
  rewrite Forall_forall in Hs.
  rewrite (Hs c), (Hs d) in Hb; [discriminate| |].
  - apply list_elem_of_lookup. eauto.
  - apply list_elem_of_lookup. eauto.
Qed.

Lemma edition_sub_inside f : forall s c,
  is_word rt c = true -> Forall (fun c => is_word rt c = true) s ->
  Re.sub_from (normalize._EDITION_RX rt) [] f (Some c) s = s.
Proof.
  induction f as [|f IH]; intros s c Hc Hs; [reflexivity|].
  destruct s as [|d s]; [reflexivity|]. simpl Re.sub_from.
  inversion Hs; subst.
  unfold normalize._EDITION_RX at 1. rewrite words_no_boundary.
  - f_equal. apply IH; assumption.
  - unfold Re.boundary. simpl. rewrite Hc. rewrite H1. reflexivity.
Qed.

Lemma edition_sub_key_string k :
  Forall (fun c => is_word rt c = true) k ->
  Re.sub (normalize._EDITION_RX rt) [] k = k
  \/ Re.sub (normalize._EDITION_RX rt) [] k = [].
Proof.
  intros Hk. unfold Re.sub. destruct k as [|c k]; [left; reflexivity|].
  simpl Re.sub_from.
  destruct (normalize._EDITION_RX rt None (c :: k)) as [[|m]|] eqn:E.
  - left. f_equal. inversion Hk; subst. apply edition_sub_inside; assumption.
  - right. unfold normalize._EDITION_RX in E.
    pose proof (words_to_the_end _ _ _ _ Hk E) as D. simpl in D.
    rewrite D. simpl. apply sub_from_nil.
  - left. f_equal. inversion Hk; subst. apply edition_sub_inside; assumption.
Qed.

Lemma strip_edition_noise_key_string k :
  key_string k -> normalize.strip_edition_noise rt k = k.
Proof.
  intros H. unfold normalize.strip_edition_noise. cbv zeta.
  rewrite (key_string_clean_title k H).
  assert (Hw : Forall (fun c => is_word rt c = true) k).
  { eapply Forall_impl; [exact H|]. intros c Hc. apply (key_char_facts c Hc). }
  destruct (edition_sub_key_string k Hw) as [-> | ->].
  - rewrite (spaces_sub_fixed k (key_string_clean_title k H)).
    assert (Hs : strip_chars (u " -–—") k = k).
    { destruct (key_string_lclean (mem (u " -–—")) k) as [Hl Hr];
        [intros c Hc; apply (key_char_facts c Hc) | exact H |].
      apply strip_by_id; assumption. }
    rewrite Hs. destruct k; reflexivity.
  - reflexivity.
Qed.

Lemma canonical_key_key_string name : key_string (dedupe.canonical_key rt name).
Proof. rewrite canonical_key_filter. apply Forall_filter_true. Qed.

Lemma canonical_key_fixed k : key_string k -> dedupe.canonical_key rt k = k.
Proof.
  intros H. rewrite canonical_key_filter.
  rewrite (strip_edition_noise_key_string k H), (key_string_lower k H).
  apply filter_all. exact H.
Qed.

End KeyStrings.

(** X10. A canonical key consists of the characters a-z and 0-9 only, and
    every string of such characters is its own canonical key; so the key of
    a key is that key. *)
Theorem canonical_key_idempotent (rt : PyRuntime) (name : str) :
  Forall (fun c => is_key_char c = true) (dedupe.canonical_key rt name)
  /\ dedupe.canonical_key rt (dedupe.canonical_key rt name)
     = dedupe.canonical_key rt name.
Proof.
  split; [apply canonical_key_key_string|].
  apply canonical_key_fixed, canonical_key_key_string.
Qed.

(** X11. [cluster] neither loses nor invents a record: every record of the
    input is in the bucket of its own canonical key, and every bucket is
    non-empty and holds only records of the input with the bucket's key. *)
Theorem cluster_partitions (rt : PyRuntime) (records : list GameRecord.t) :
  (forall r, r ∈ records ->
     exists bucket,
       dedupe.cluster rt records !! dedupe.canonical_key rt (GameRecord.name r)
       = Some bucket /\ r ∈ bucket)
  /\ (forall k bucket,
        dedupe.cluster rt records !! k = Some bucket ->
        bucket <> []
        /\ forall r, r ∈ bucket ->
             r ∈ records /\ dedupe.canonical_key rt (GameRecord.name r) = k).
Proof.
  split.
  - intros r Hr. rewrite cluster_lookup.
    assert (Hin : r ∈ List.filter
                    (fun r0 => str_eqb (dedupe.canonical_key rt (GameRecord.name r0))
                                 (dedupe.canonical_key rt (GameRecord.name r)))
                    records).
    { apply list_elem_of_In, filter_In. split; [apply list_elem_of_In; exact Hr|].
      apply bool_decide_eq_true_2. reflexivity. }
    destruct (List.filter _ records) as [|r0 l] eqn:E; [inversion Hin|].
    eexists. split; [reflexivity | exact Hin].
  - intros k bucket H. rewrite cluster_lookup in H.
    destruct (List.filter _ records) as [|r0 l] eqn:E; [discriminate|].
    injection H as <-. split; [discriminate|].
    intros r Hr. rewrite <- E in Hr.
    apply list_elem_of_In, filter_In in Hr as [Hr Hk].
    split; [apply list_elem_of_In; exact Hr|].
    apply bool_decide_eq_true_1 in Hk. exact Hk.
Qed.

(** ** nintendo.py: one item *)

Section Items.

Variable rt : PyRuntime.
Variable locale : str.

Lemma or_falsy a b : Py.truthy a = false -> a ||| b = b.
Proof. unfold Py.or_. intros ->. reflexivity. Qed.

Lemma api_item_untitled d :
  Py.truthy (Py.dict_get d (u "title")) = false ->
  Py.truthy (Py.dict_get d (u "name")) = false ->
  Py.truthy (Py.dict_get d (u "productTitle")) = false ->
  nintendo._normalize_api_item rt locale (PDict d) = Ok None.
Proof.
  intros H1 H2 H3. unfold nintendo._normalize_api_item. simpl Py.as_dict.
  cbn [mbind Result_bind].
  rewrite (or_falsy _ _ H1), (or_falsy _ _ H2), (or_falsy _ _ H3).
  reflexivity.
Qed.

Lemma api_item_not_dict v :
  (forall d, v <> PDict d) ->
  nintendo._normalize_api_item rt locale v = Raise AttributeError.
Proof.
  intros H. destruct v; try reflexivity. exfalso. eapply H. reflexivity.
Qed.

Lemma coerce_not_dict v url :
  (forall d, v <> PDict d) -> nintendo._coerce_to_api_like v url = PDict [].
Proof.
  intros H. destruct v; try reflexivity. exfalso. eapply H. reflexivity.
Qed.

Lemma candidates_not_dict items url :
  Forall (fun v => forall d, v <> PDict d) items ->
  nintendo.candidates rt locale items url = Ok [].
Proof.
  induction 1 as [|v items Hv _ IH]; [reflexivity|].
  simpl. rewrite (coerce_not_dict v url Hv).
  rewrite api_item_untitled by reflexivity.
  cbn [mbind Result_bind]. rewrite IH. reflexivity.
Qed.

Lemma walk_no_object url : forall o,
  no_object o = true -> nintendo.walk rt locale o url = Ok [].
Proof.
  fix IH 1. intros [| | | | |l|d] H; try reflexivity; [|discriminate].
  simpl in H. simpl.
  revert H. induction l as [|a l IHl]; intros H; [reflexivity|].
  simpl in H. apply andb_true_iff in H as [Ha Hl].
  rewrite (IH a Ha). cbn [mbind Result_bind]. rewrite (IHl Hl). reflexivity.
Qed.

End Items.

(** X12. The search-API normaliser rejects an item before reading anything
    but its title: an object whose title, name and productTitle are all
    missing or empty gives no record and no exception, whatever its other
    fields hold, and a raw item that is not an object raises
    [AttributeError]. *)
Theorem api_item_rejected_by_title
    (rt : PyRuntime) (locale : str) (it : pyval) :
  (forall d,
     it = PDict d ->
     Py.truthy (Py.dict_get d (u "title")) = false ->
     Py.truthy (Py.dict_get d (u "name")) = false ->
     Py.truthy (Py.dict_get d (u "productTitle")) = false ->
     nintendo._normalize_api_item rt locale it = Ok None)
  /\ ((forall d, it <> PDict d) ->
      nintendo._normalize_api_item rt locale it = Raise AttributeError).
Proof.
  split.
  - intros d -> H1 H2 H3. apply api_item_untitled; assumption.
  - intros H. apply api_item_not_dict. exact H.
Qed.

Lemma api_item_rejected_by_title_witness :
  nintendo._normalize_api_item ascii_runtime (u "en-US")
    (PDict [(u "title", PStr []); (u "price", PStr (u "$5"))]) = Ok None
  /\ nintendo._normalize_api_item ascii_runtime (u "en-US") (PStr (u "tile"))
     = Raise AttributeError.
Proof.
  split.
  - apply (proj1 (api_item_rejected_by_title ascii_runtime (u "en-US") _)
             [(u "title", PStr []); (u "price", PStr (u "$5"))]);
      reflexivity.
  - apply (proj2 (api_item_rejected_by_title ascii_runtime (u "en-US") _)).
    discriminate.
Defined.

(** X13. In the embedded data, candidates that are not objects are passed
    over without an exception, and a payload that holds no object at any
    depth gives no record. *)
Theorem embedded_data_without_objects
    (rt : PyRuntime) (locale : str) (url : str) :
  (forall items,
     Forall (fun v => forall d, v <> PDict d) items ->
     nintendo.candidates rt locale items url = Ok [])
  /\ (forall o, no_object o = true -> nintendo.walk rt locale o url = Ok []).
Proof.
  split.
  - intros items H. apply candidates_not_dict. exact H.
  - intros o H. apply walk_no_object. exact H.
Qed.

Lemma embedded_data_without_objects_witness :
  nintendo.candidates ascii_runtime (u "en-US") [PStr (u "tile"); PNone; PInt 3]
    games_url = Ok []
  /\ nintendo.walk ascii_runtime (u "en-US")
       (PList [PList [PStr (u "products")]; PInt 1]) games_url = Ok [].
Proof.
  split.
  - apply (proj1 (embedded_data_without_objects ascii_runtime (u "en-US") games_url)).
    repeat constructor; discriminate.
  - apply (proj2 (embedded_data_without_objects ascii_runtime (u "en-US") games_url)).
    reflexivity.
Defined.

(** *** The records the normalisers build *)

Lemma bind_Ok {A B} (m : Result A) (f : A -> Result B) b :
  (x ← m; f x) = Ok b -> exists a, m = Ok a /\ f a = Ok b.
Proof. destruct m; simpl; [eauto|discriminate]. Qed.

Lemma api_item_record rt locale it g :
  nintendo._normalize_api_item rt locale it = Ok (Some g) ->
  exists title name price_str image href uuid platforms,
    name = normalize.strip_edition_noise rt (normalize.clean_title title)
    /\ name <> []
    /\ GameRecord.create rt (u "nintendo") name price_str image href uuid
         platforms None (Some (u "game")) = Ok g.
Proof.
  unfold nintendo._normalize_api_item. intros H.
  apply bind_Ok in H as (d & _ & H).
  apply bind_Ok in H as (title & _ & H).
  destruct (null _) eqn:En; [discriminate|].
  apply bind_Ok in H as (image & _ & H).
  apply bind_Ok in H as (price_str & _ & H).
  apply bind_Ok in H as (platforms & _ & H).
  apply bind_Ok in H as (rec & Hc & H). injection H as <-.
  do 7 eexists. split; [reflexivity|]. split; [|exact Hc].
  intros E. rewrite E in En. discriminate.
Qed.

Lemma jsonld_item_record rt b url g :
  nintendo._normalize_jsonld_item rt b url = Ok (Some g) ->
  exists title name price_str image href uuid,
    name = normalize.strip_edition_noise rt (normalize.clean_title title)
    /\ name <> []
    /\ (Py.truthy (Py.dict_get b (u "offers")) = false ->
        price_str = u "Unavailable")
    /\ GameRecord.create rt (u "nintendo") name price_str image href uuid
         [u "Switch"] None (Some (u "game")) = Ok g.
Proof.
  unfold nintendo._normalize_jsonld_item. intros H.
  apply bind_Ok in H as (title & _ & H).
  destruct (null _) eqn:En; [discriminate|].
  apply bind_Ok in H as (offers & Ho & H).
  apply bind_Ok in H as (price_str & Hp & H).
  apply bind_Ok in H as (rec & Hc & H). injection H as <-.
  do 6 eexists. split; [reflexivity|]. split; [|split; [|exact Hc]].
  - intros E. rewrite E in En. discriminate.
  - intros Hf. rewrite (or_falsy _ _ Hf) in Ho. injection Ho as <-.
    simpl in Hp. injection Hp as <-. reflexivity.
Qed.

(** X14. Every record either normaliser builds is a nintendo record of type
    game with no rating, a name that is not empty and is the title with its
    edition noise stripped, and a price that is not empty; a linked-data
    record has the platforms list Switch, and the price Unavailable when the
    block has no offers. *)
Theorem normalised_record_fields (rt : PyRuntime) (locale : str) :
  (forall it g,
     nintendo._normalize_api_item rt locale it = Ok (Some g) ->
     GameRecord.store g = u "nintendo" /\ GameRecord.type g = Some (u "game")
     /\ GameRecord.rating g = None /\ GameRecord.name g <> []
     /\ (exists title, GameRecord.name g = normalize.strip_edition_noise rt title)
     /\ GameRecord.price g <> [])
  /\ (forall b url g,
        nintendo._normalize_jsonld_item rt b url = Ok (Some g) ->
        GameRecord.store g = u "nintendo" /\ GameRecord.type g = Some (u "game")
        /\ GameRecord.rating g = None /\ GameRecord.name g <> []
        /\ (exists title, GameRecord.name g = normalize.strip_edition_noise rt title)
        /\ GameRecord.price g <> []
        /\ GameRecord.platforms g = [u "Switch"]
        /\ (Py.truthy (Py.dict_get b (u "offers")) = false ->
            GameRecord.price g = u "Unavailable")).
Proof.
  split.
  - intros it g H.
    apply api_item_record in H as (title & name & p & i & h & uu & pl & -> & Hne & Hc).
    pose proof (GameRecord_create_fields _ _ _ _ _ _ _ _ _ _ _ Hc)
      as (Hs & Hn & Hp & _ & _ & _ & Hr & Ht & _).
    rewrite Hs, Hn, Hp, Hr, Ht.
    split; [reflexivity|]. split; [reflexivity|]. split; [reflexivity|].
    split; [exact Hne|]. split.
    + exists (normalize.clean_title title). reflexivity.
    + apply (price_nonempty_shape p).
  - intros b url g H.
    apply jsonld_item_record in H
      as (title & name & p & i & h & uu & -> & Hne & Hoff & Hc).
    pose proof (GameRecord_create_platforms _ _ _ _ _ _ _ _ _ _ _ Hc) as Hpl.
    pose proof (GameRecord_create_fields _ _ _ _ _ _ _ _ _ _ _ Hc)
      as (Hs & Hn & Hp & _ & _ & _ & Hr & Ht & _).
    rewrite Hs, Hn, Hp, Hr, Ht, Hpl.
    split; [reflexivity|]. split; [reflexivity|]. split; [reflexivity|].
    split; [exact Hne|]. split; [|split; [|split]].
    + exists (normalize.clean_title title). reflexivity.
    + apply (price_nonempty_shape p).
    + vm_compute. reflexivity.
    + intros Hf. rewrite (Hoff Hf). reflexivity.
Qed.

Lemma normalised_record_fields_witness :
  let g := super_game_record games_url in
  GameRecord.store g = u "nintendo" /\ GameRecord.type g = Some (u "game")
  /\ GameRecord.rating g = None /\ GameRecord.name g <> []
  /\ (exists title,
        GameRecord.name g = normalize.strip_edition_noise ascii_runtime title)
  /\ GameRecord.price g <> []
  /\ GameRecord.platforms g = [u "Switch"]
  /\ (Py.truthy (Py.dict_get super_game_fields (u "offers")) = false ->
      GameRecord.price g = u "Unavailable").
Proof.
  apply (proj2 (normalised_record_fields ascii_runtime (u "en-US"))
           super_game_fields games_url (super_game_record games_url)).
  vm_compute. reflexivity.
Defined.

(** *** Offers that are not an object *)

Lemma jsonld_item_offers_not_dict rt b url title v :
  Py.dict_get b (u "name") = PStr title ->
  normalize.strip_edition_noise rt title <> [] ->
  Py.dict_get b (u "offers") = v ->
  Py.truthy v = true ->
  (forall d, v <> PDict d) -> (forall l, v <> PList l) ->
  nintendo._normalize_jsonld_item rt b url = Raise AttributeError.
Proof.
  intros Hn Hne Ho Ht Hd Hl. unfold nintendo._normalize_jsonld_item.
  rewrite Hn, Ho.
  assert (Htitle : PStr title ||| PStr [] = PStr title).
  { unfold Py.or_. simpl. destruct title; [|reflexivity].
    exfalso. apply Hne. reflexivity. }
  rewrite Htitle. cbn [nintendo.title_arg mbind Result_bind].
  rewrite strip_edition_noise_cleans.
  destruct (normalize.strip_edition_noise rt title) eqn:E; [contradiction|].
  cbn [null].
  assert (Hv : v ||| PDict [] = v) by (unfold Py.or_; rewrite Ht; reflexivity).
  rewrite Hv.
  destruct v; try reflexivity; exfalso; [eapply Hl | eapply Hd]; reflexivity.
Qed.

(** X15. A linked-data Product block with a usable name whose offers field
    is a non-empty value other than an object or a list (a string, say)
    makes the normaliser raise [AttributeError]; nothing catches it, so a
    page whose only linked-data script is that block ends the page's
    iteration with the exception and yields no record. *)
Theorem jsonld_offers_not_object_raises
    (rt : PyRuntime) (locale : str) (html : nintendo.page)
    (b : list (str * pyval)) (url title : str) (v : pyval) :
  Py.dict_get b (u "name") = PStr title ->
  normalize.strip_edition_noise rt title <> [] ->
  Py.dict_get b (u "offers") = v ->
  Py.truthy v = true ->
  (forall d, v <> PDict d) -> (forall l, v <> PList l) ->
  Py.dict_has b (u "@graph") = false ->
  nintendo.is_product_type rt (nintendo.type_of b) = true ->
  nintendo.next_data html = None ->
  nintendo.ld_json html = [Some (PDict b)] ->
  nintendo._normalize_jsonld_item rt b url = Raise AttributeError
  /\ nintendo._iter_list_page rt locale html url = ([], Some AttributeError).
Proof.
  intros Hn Hne Ho Ht Hd Hl Hg Hty Hnext Hld.
  pose proof (jsonld_item_offers_not_dict rt b url title v Hn Hne Ho Ht Hd Hl) as E.
  split; [exact E|].
  unfold nintendo._iter_list_page, nintendo._parse_next_data,
    nintendo._parse_jsonld.
  rewrite Hnext, Hld.
  cbn [nintendo.jsonld_scripts nintendo.jsonld_entries nintendo.jsonld_entry].
  rewrite Hg, Hty, E. reflexivity.
Qed.

Lemma jsonld_offers_not_object_raises_witness :
  nintendo._normalize_jsonld_item ascii_runtime free_offer_block games_url
  = Raise AttributeError
  /\ nintendo._iter_list_page ascii_runtime (u "en-US") free_offer_page games_url
     = ([], Some AttributeError).
Proof.
  apply (jsonld_offers_not_object_raises ascii_runtime (u "en-US")
           free_offer_page free_offer_block games_url (u "Tetris")
           (PStr (u "free")));
    first [ vm_compute; reflexivity | intros; discriminate
          | vm_compute; discriminate ].
Defined.

(** ** nintendo.py: runs of the search loop *)

Section SearchRuns.

Variable rt : PyRuntime.
Variable locale : str.
Variable fetch_page : Z -> Result pyval.
Variable page_size : Z.

Lemma page_records_Some js recs :
  page_records rt locale js = Some recs ->
  nintendo.normalize_items rt locale (nintendo._extract_items_from_api js)
  = (recs, None).
Proof.
  unfold page_records.
  destruct (nintendo.normalize_items _ _ _) as [recs' [e|]]; [discriminate|].
  intros [= ->]. reflexivity.
Qed.

Lemma pages_records_S first n recss :
  pages_records rt locale fetch_page first (S n) = Some recss ->
  exists js recs rest,
    fetch_page first = Ok js /\ page_records rt locale js = Some recs
    /\ pages_records rt locale fetch_page (first + 1) n = Some rest
    /\ recss = recs :: rest.
Proof.
  simpl. destruct (fetch_page first) as [js|]; [|discriminate].
  destruct (page_records rt locale js) as [recs|] eqn:Er; [|discriminate].
  destruct (pages_records rt locale fetch_page (first + 1) n) as [rest|];
    [|discriminate].
  intros [= <-]. exists js, recs, rest. repeat split. exact Er.
Qed.

Lemma search_returns n : forall first recss js last fuel,
  pages_records rt locale fetch_page first n = Some recss ->
  Forall (fun recs => page_size <= Z.of_nat (length recs)) recss ->
  fetch_page (first + Z.of_nat n) = Ok js ->
  page_records rt locale js = Some last ->
  Z.of_nat (length last) < page_size ->
  (n < fuel)%nat ->
  nintendo.search_from rt locale fetch_page page_size fuel first
  = {| nintendo.fetched := page_range first (S n);
       nintendo.yielded := concat recss ++ last;
       nintendo.ended := nintendo.Returned |}.
Proof.
  induction n as [|n IH]; intros first recss js last fuel Hp Hfull Hf Hl Hshort Hfuel;
    (destruct fuel as [|fuel]; [lia|]).
  - simpl in Hp. injection Hp as <-.
    replace (first + Z.of_nat 0) with first in Hf by lia.
    rewrite (search_from_step _ _ _ _ _ _ js last Hf (page_records_Some _ _ Hl)).
    apply Z.ltb_lt in Hshort. rewrite Hshort. reflexivity.
  - apply pages_records_S in Hp as (js0 & recs & rest & Hf0 & Hr0 & Hrest & ->).
    inversion Hfull as [|? ? Hfull0 Hfull']; subst.
    rewrite (search_from_step _ _ _ _ _ _ js0 recs Hf0 (page_records_Some _ _ Hr0)).
    apply Z.ltb_ge in Hfull0. rewrite Hfull0. cbv zeta.
    replace (first + Z.of_nat (S n)) with (first + 1 + Z.of_nat n) in Hf by lia.
    rewrite (IH (first + 1) rest js last fuel Hrest Hfull' Hf Hl Hshort ltac:(lia)).
    cbn [nintendo.fetched nintendo.yielded nintendo.ended].
    simpl concat. rewrite app_assoc. reflexivity.
Qed.

Lemma search_keeps_running fuel : forall first recss,
  pages_records rt locale fetch_page first fuel = Some recss ->
  Forall (fun recs => page_size <= Z.of_nat (length recs)) recss ->
  nintendo.search_from rt locale fetch_page page_size fuel first
  = {| nintendo.fetched := page_range first fuel;
       nintendo.yielded := concat recss;
       nintendo.ended := nintendo.Running |}.
Proof.
  induction fuel as [|fuel IH]; intros first recss Hp Hfull.
  - simpl in Hp. injection Hp as <-. reflexivity.
  - apply pages_records_S in Hp as (js0 & recs & rest & Hf0 & Hr0 & Hrest & ->).
    inversion Hfull as [|? ? Hfull0 Hfull']; subst.
    rewrite (search_from_step _ _ _ _ _ _ js0 recs Hf0 (page_records_Some _ _ Hr0)).
    apply Z.ltb_ge in Hfull0. rewrite Hfull0. cbv zeta.
    rewrite (IH (first + 1) rest Hrest Hfull'). reflexivity.
Qed.

End SearchRuns.

(** X16. The search loop returns after the first short page: when the pages
    0 to n-1 each give at least [page_size] records and page n gives fewer
    (all fetched and normalised without an exception), the loop requests
    exactly the pages 0 to n, yields their records in order and returns. *)
Theorem search_returns_after_first_short_page
    (rt : PyRuntime) (locale : str) (fetch_page : Z -> Result pyval)
    (page_size : Z) (n : nat) (recss : list (list GameRecord.t))
    (js : pyval) (last : list GameRecord.t) (fuel : nat) :
  pages_records rt locale fetch_page 0 n = Some recss ->
  Forall (fun recs => page_size <= Z.of_nat (length recs)) recss ->
  fetch_page (Z.of_nat n) = Ok js ->
  page_records rt locale js = Some last ->
  Z.of_nat (length last) < page_size ->
  (n < fuel)%nat ->
  nintendo._iter_search_api rt locale fetch_page page_size fuel
  = {| nintendo.fetched := page_range 0 (S n);
       nintendo.yielded := concat recss ++ last;
       nintendo.ended := nintendo.Returned |}.
Proof.
  intros Hp Hfull Hf Hl Hshort Hfuel. unfold nintendo._iter_search_api.
  apply (search_returns rt locale fetch_page page_size n 0 recss js last fuel);
    assumption.
Qed.

Lemma search_returns_after_first_short_page_witness :
  nintendo._iter_search_api ascii_runtime (u "en-US") two_page_catalogue 1 5
  = {| nintendo.fetched := page_range 0 2;
       nintendo.yielded := concat [[tetris_record]] ++ [];
       nintendo.ended := nintendo.Returned |}.
Proof.
  apply (search_returns_after_first_short_page ascii_runtime (u "en-US")
           two_page_catalogue 1 1 [[tetris_record]] untitled_page [] 5).
  - vm_compute. reflexivity.
  - repeat constructor. simpl. lia.
  - reflexivity.
  - vm_compute. reflexivity.
  - simpl. lia.
  - lia.
Defined.

(** X17. The search loop has no bound of its own: as long as every page
    comes back with at least [page_size] records it asks for the next one,
    and with a [page_size] of zero or less every page counts as full, an
    empty one included, so the loop never returns. *)
Theorem search_never_returns_while_pages_are_full
    (rt : PyRuntime) (locale : str) (fetch_page : Z -> Result pyval)
    (page_size : Z) (fuel : nat) (recss : list (list GameRecord.t)) :
  pages_records rt locale fetch_page 0 fuel = Some recss ->
  (Forall (fun recs => page_size <= Z.of_nat (length recs)) recss
   \/ page_size <= 0) ->
  nintendo._iter_search_api rt locale fetch_page page_size fuel
  = {| nintendo.fetched := page_range 0 fuel;
       nintendo.yielded := concat recss;
       nintendo.ended := nintendo.Running |}.
Proof.
  intros Hp Hfull. unfold nintendo._iter_search_api.
  apply search_keeps_running; [exact Hp|].
  destruct Hfull as [H|H]; [exact H|].
  apply Forall_forall. intros recs _. lia.
Qed.

Lemma search_never_returns_while_pages_are_full_witness :
  nintendo._iter_search_api ascii_runtime (u "en-US") (fun _ => Ok tetris_page) 1 3
  = {| nintendo.fetched := page_range 0 3;
       nintendo.yielded :=
         concat [[tetris_record]; [tetris_record]; [tetris_record]];
       nintendo.ended := nintendo.Running |}.
Proof.
  apply (search_never_returns_while_pages_are_full ascii_runtime (u "en-US")
           (fun _ => Ok tetris_page) 1 3
           [[tetris_record]; [tetris_record]; [tetris_record]]).
  - vm_compute. reflexivity.
  - left. repeat constructor; simpl; lia.
Defined.

(** ** nintendo.py: the crawl *)

Section Crawl.

Variable rt : PyRuntime.
Variable locale : str.
Variable get_json : Z -> Z -> Result pyval.
Variable get_text : str -> Result nintendo.page.
Variable fuel : nat.

Lemma list_pages_all urls recss :
  Forall2 (fun url recs =>
             exists html,
               get_text url = Ok html
               /\ nintendo._iter_list_page rt locale html url = (recs, None))
    urls recss ->
  NintendoAdapter.list_pages rt locale get_text urls
  = {| NintendoAdapter.requests := NintendoAdapter.Listing <$> urls;
       NintendoAdapter.records := concat recss;
       NintendoAdapter.crawl_ended := nintendo.Returned |}.
Proof.
  induction 1 as [|url recs urls recss (html & Hf & Hp) _ IH]; [reflexivity|].
  simpl. rewrite Hf, Hp, IH. reflexivity.
Qed.

Lemma list_pages_stops pre recss url post partial e :
  Forall2 (fun url recs =>
             exists html,
               get_text url = Ok html
               /\ nintendo._iter_list_page rt locale html url = (recs, None))
    pre recss ->
  (get_text url = Raise e /\ partial = []
   \/ exists html,
        get_text url = Ok html
        /\ nintendo._iter_list_page rt locale html url = (partial, Some e)) ->
  NintendoAdapter.list_pages rt locale get_text (pre ++ url :: post)
  = {| NintendoAdapter.requests := NintendoAdapter.Listing <$> (pre ++ [url]);
       NintendoAdapter.records := concat recss ++ partial;
       NintendoAdapter.crawl_ended := nintendo.Raised e |}.
Proof.
  intros Hpre Hurl.
  induction Hpre as [|url0 recs pre recss (html & Hf & Hp) _ IH].
  - simpl. destruct Hurl as [[Hf ->]|(html & Hf & Hp)].
    + rewrite Hf. reflexivity.
    + rewrite Hf, Hp. reflexivity.
  - simpl. rewrite Hf, Hp, IH. cbn [NintendoAdapter.requests
      NintendoAdapter.records NintendoAdapter.crawl_ended].
    rewrite app_assoc. reflexivity.
Qed.

Lemma list_pages_prefix urls :
  (exists k,
     NintendoAdapter.requests (NintendoAdapter.list_pages rt locale get_text urls)
     = NintendoAdapter.Listing <$> take k urls)
  /\ NintendoAdapter.crawl_ended (NintendoAdapter.list_pages rt locale get_text urls)
     <> nintendo.Running.
Proof.
  induction urls as [|url urls [[k IH] IHe]].
  - split; [exists O; reflexivity | discriminate].
  - simpl. destruct (get_text url) as [html|e].
    + destruct (nintendo._iter_list_page rt locale html url) as [recs [e|]].
      * split; [exists 1%nat; reflexivity | discriminate].
      * split; [exists (S k); simpl; rewrite IH; reflexivity | exact IHe].
    + split; [exists 1%nat; reflexivity | discriminate].
Qed.

Lemma iter_games_no_search e :
  default [] (NintendoAdapter.search_api e) = [] ->
  NintendoAdapter.iter_games rt locale get_json get_text fuel e
  = NintendoAdapter.list_pages rt locale get_text
      (default [] (NintendoAdapter.seed_pages e)).
Proof.
  intros H. unfold NintendoAdapter.iter_games. rewrite H. reflexivity.
Qed.

End Crawl.

(** X18. Without a search API the crawl is the listing pages alone, in seed
    order: when every page is fetched and parsed without an exception, all
    are requested and their records yielded in order; the first page whose
    fetch or parsing raises ends the crawl with that exception, and the
    pages after it are never requested. *)
Theorem iter_games_listing_pages_only
    (rt : PyRuntime) (locale : str) (get_json : Z -> Z -> Result pyval)
    (get_text : str -> Result nintendo.page) (fuel : nat)
    (e : NintendoAdapter.endpoints) :
  default [] (NintendoAdapter.search_api e) = [] ->
  let urls := default [] (NintendoAdapter.seed_pages e) in
  let crawl := NintendoAdapter.iter_games rt locale get_json get_text fuel e in
  let page_gives := fun url recs =>
    exists html,
      get_text url = Ok html
      /\ nintendo._iter_list_page rt locale html url = (recs, None) in
  (forall recss,
     Forall2 page_gives urls recss ->
     crawl = {| NintendoAdapter.requests := NintendoAdapter.Listing <$> urls;
                NintendoAdapter.records := concat recss;
                NintendoAdapter.crawl_ended := nintendo.Returned |})
  /\ (forall pre recss url post partial exc,
        urls = pre ++ url :: post ->
        Forall2 page_gives pre recss ->
        (get_text url = Raise exc /\ partial = []
         \/ exists html,
              get_text url = Ok html
              /\ nintendo._iter_list_page rt locale html url
                 = (partial, Some exc)) ->
        crawl = {| NintendoAdapter.requests :=
                     NintendoAdapter.Listing <$> (pre ++ [url]);
                   NintendoAdapter.records := concat recss ++ partial;
                   NintendoAdapter.crawl_ended := nintendo.Raised exc |}).
Proof.
  intros Hs. cbv zeta. rewrite (iter_games_no_search _ _ _ _ _ _ Hs). split.
  - intros recss H. apply list_pages_all. exact H.
  - intros pre recss url post partial exc -> Hpre Hurl.
    apply list_pages_stops; assumption.
Qed.

Lemma iter_games_listing_pages_only_witness :
  NintendoAdapter.iter_games ascii_runtime (u "en-US")
    (fun _ _ => Raise FetchError) one_page_site 3 listing_endpoints
  = {| NintendoAdapter.requests :=
         NintendoAdapter.Listing
           <$> ([games_url] ++ [games_url ++ u "/?f=on-sale"]);
       NintendoAdapter.records := concat [[super_game_record games_url]] ++ [];
       NintendoAdapter.crawl_ended := nintendo.Raised FetchError |}.
Proof.
  apply (proj2 (iter_games_listing_pages_only ascii_runtime (u "en-US")
                  (fun _ _ => Raise FetchError) one_page_site 3
                  listing_endpoints eq_refl)
           [games_url] [[super_game_record games_url]]
           (games_url ++ u "/?f=on-sale") [games_url ++ u "/?f=new-releases"]
           [] FetchError).
  - reflexivity.
  - constructor; [|constructor]. exists super_game_page.
    split; vm_compute; reflexivity.
  - left. split; [vm_compute; reflexivity | reflexivity].
Defined.

(** ** nintendo.py: the default seed pages *)

Lemma is_prefix_app (p s : str) : is_prefix p (p ++ s) = true.
Proof.
  induction p as [|c p IH]; [destruct s; reflexivity|].
  simpl. rewrite Z.eqb_refl. exact IH.
Qed.

Lemma ascii_locale_normal (l : str) :
  all_ascii l = true ->
  all_ascii (map ascii_lower (replace1 95 45 l)) = true
  /\ map ascii_lower (replace1 95 45 (map ascii_lower (replace1 95 45 l)))
     = map ascii_lower (replace1 95 45 l).
Proof.
  unfold replace1. induction l as [|c l IH]; [split; reflexivity|].
  cbn [all_ascii forallb map]. intros H. apply andb_true_iff in H as [Hc Hl].
  destruct (IH Hl) as [IH1 IH2]. unfold all_ascii in IH1. rewrite IH1, IH2.
  unfold is_ascii in Hc.
  assert (Hr : 0 <= c < 128) by lia.
  split.
  - rewrite andb_true_r. unfold ascii_lower, is_ascii_upper, in_range, is_ascii.
    destruct (c =? 95) eqn:E; [reflexivity|].
    destruct ((65 <=? c) && (c <=? 90)) eqn:E2; lia.
  - f_equal. unfold ascii_lower, is_ascii_upper, in_range.
    destruct (c =? 95) eqn:E.
    + reflexivity.
    + destruct ((65 <=? c) && (c <=? 90)) eqn:E2.
      * destruct (c + 32 =? 95) eqn:E3; [lia|].
        destruct ((65 <=? c + 32) && (c + 32 <=? 90)) eqn:E4; [lia|reflexivity].
      * rewrite E, E2. reflexivity.
Qed.

Lemma lower_ascii rt (s : str) : all_ascii s = true -> lower rt s = map ascii_lower s.
Proof. intros H. unfold lower. rewrite H. reflexivity. Qed.

Lemma all_ascii_replace1 (l : str) :
  all_ascii l = true -> all_ascii (replace1 95 45 l) = true.
Proof.
  unfold replace1. induction l as [|c l IH]; [reflexivity|].
  cbn [all_ascii forallb map].
  intros H. apply andb_true_iff in H as [Hc Hl].
  unfold all_ascii in IH. rewrite (IH Hl), andb_true_r.
  destruct (c =? 95); [reflexivity | exact Hc].
Qed.

Lemma seed_locale_normal rt (locale : str) :
  all_ascii locale = true ->
  lower rt (replace1 95 45 (map ascii_lower (replace1 95 45 locale)))
  = lower rt (replace1 95 45 locale).
Proof.
  intros Ha. destruct (ascii_locale_normal locale Ha) as [Hn1 Hn2].
  rewrite (lower_ascii rt (replace1 95 45 locale))
    by (apply all_ascii_replace1; exact Ha).
  rewrite lower_ascii by (apply all_ascii_replace1; exact Hn1).
  exact Hn2.
Qed.

Lemma is_prefix_app3 (a b c d : str) : is_prefix (a ++ b ++ c) ((a ++ b ++ c) ++ d) = true.
Proof. apply is_prefix_app. Qed.

(** X19. The default seed pages are five listing URLs of www.nintendo.com
    under the locale in lower case with hyphens; the country plays no part,
    and for an ASCII locale any spelling in upper case or with underscores
    gives the same pages as its normal form. *)
Theorem default_seed_pages_by_locale
    (rt : PyRuntime) (country locale : str) :
  let base :=
    u "https://www.nintendo.com/" ++ lower rt (replace1 95 45 locale)
      ++ u "/store/games" in
  length (_default_seed_pages rt country locale) = 5%nat
  /\ head (_default_seed_pages rt country locale) = Some base
  /\ Forall (fun url => is_prefix base url = true)
       (_default_seed_pages rt country locale)
  /\ (forall country', _default_seed_pages rt country' locale
                       = _default_seed_pages rt country locale)
  /\ (all_ascii locale = true ->
      _default_seed_pages rt country (map ascii_lower (replace1 95 45 locale))
      = _default_seed_pages rt country locale).
Proof.
  cbv zeta. split; [reflexivity|]. split; [reflexivity|].
  split; [|split; [reflexivity|]].
  - unfold _default_seed_pages. cbv zeta.
    repeat apply Forall_cons_2; [| apply is_prefix_app3 .. | apply Forall_nil_2].
    rewrite <- (app_nil_r (_ ++ _ ++ _)) at 2. apply is_prefix_app3.
  - intros Ha. unfold _default_seed_pages. cbv zeta.
    rewrite (seed_locale_normal rt locale Ha). reflexivity.
Qed.

Lemma default_seed_pages_by_locale_witness :
  _default_seed_pages ascii_runtime (u "US") (map ascii_lower (replace1 95 45 (u "en_US")))
  = _default_seed_pages ascii_runtime (u "US") (u "en_US").
Proof.
  apply (proj2 (proj2 (proj2 (proj2
    (default_seed_pages_by_locale ascii_runtime (u "US") (u "en_US")))))).
  reflexivity.
Defined.

(** X20. An adapter built without endpoints has no search API: it requests
    listing pages only, a prefix of its five default seed pages in their
    order, and its crawl always ends, by returning or by an exception. *)
Theorem default_adapter_requests_seed_pages
    (rt : PyRuntime) (country locale : str) (get_json : Z -> Z -> Result pyval)
    (get_text : str -> Result nintendo.page) (fuel : nat) :
  let crawl :=
    NintendoAdapter.iter_games rt locale get_json get_text fuel
      (NintendoAdapter.__init__ rt country locale None) in
  (exists k,
     NintendoAdapter.requests crawl
     = NintendoAdapter.Listing <$> take k (_default_seed_pages rt country locale))
  /\ NintendoAdapter.crawl_ended crawl <> nintendo.Running.
Proof.
  cbv zeta. rewrite iter_games_no_search by reflexivity.
  apply list_pages_prefix.
Qed.

(** ** adapters/__init__.py *)

Lemma ascii_lower_upper c : ascii_lower (ascii_upper c) = ascii_lower c.
Proof.
  unfold ascii_lower, ascii_upper, is_ascii_upper, is_ascii_lower, in_range.
  destruct ((97 <=? c) && (c <=? 122)) eqn:E1.
  - destruct ((65 <=? c - 32) && (c - 32 <=? 90)) eqn:E2; [|lia].
    destruct ((65 <=? c) && (c <=? 90)) eqn:E3; lia.
  - reflexivity.
Qed.

Lemma str_eqb_sym (a b : str) : str_eqb a b = str_eqb b a.
Proof. unfold str_eqb. apply bool_decide_ext. split; congruence. Qed.

Lemma all_ascii_upper (s : str) :
  all_ascii s = true -> all_ascii (map ascii_upper s) = true.
Proof.
  induction s as [|c s IH]; [reflexivity|].
  cbn [all_ascii forallb map].
  intros H. apply andb_true_iff in H as [Hc Hs].
  unfold all_ascii in IH. rewrite (IH Hs), andb_true_r.
  unfold is_ascii in *. unfold ascii_upper, is_ascii_lower, in_range.
  destruct ((97 <=? c) && (c <=? 122)) eqn:E; lia.
Qed.

(** X21. [get_adapter] finds an adapter exactly for the names that
    lower-case to one of the store names a [GameRecord] accepts, and for an
    ASCII name the spelling in upper case finds the same adapter. *)
Theorem get_adapter_by_lower_case_name (rt : PyRuntime) (name : str) :
  (is_Some (adapters.get_adapter rt name)
   <-> is_literal stores (lower rt name) = true)
  /\ (all_ascii name = true ->
      adapters.get_adapter rt (map ascii_upper name)
      = adapters.get_adapter rt name).
Proof.
  split.
  - unfold adapters.get_adapter, adapters.ADAPTERS, is_literal, stores.
    cbn [adapters.get existsb].
    generalize (lower rt name). intros k.
    rewrite (str_eqb_sym (u "steam") k), (str_eqb_sym (u "psn") k),
      (str_eqb_sym (u "xbox") k), (str_eqb_sym (u "nintendo") k).
    unfold str_eqb.
    repeat (destruct (bool_decide _); cbn [orb]);
      split; intros H; try reflexivity; try discriminate;
      try (eexists; reflexivity);
      try (destruct H; discriminate).
  - intros Ha. unfold adapters.get_adapter. f_equal.
    rewrite (lower_ascii rt name Ha).
    rewrite (lower_ascii rt _ (all_ascii_upper name Ha)).
    rewrite map_map. apply map_ext. intros c. apply ascii_lower_upper.
Qed.

Lemma get_adapter_by_lower_case_name_witness :
  adapters.get_adapter ascii_runtime (map ascii_upper (u "Steam"))
  = adapters.get_adapter ascii_runtime (u "Steam").
Proof.
  apply (proj2 (get_adapter_by_lower_case_name ascii_runtime (u "Steam"))).
  reflexivity.
Defined.

(** ** nintendo.py: the search phase of the crawl *)

Section SearchPhase.

Variable rt : PyRuntime.
Variable locale : str.
Variable get_json : Z -> Z -> Result pyval.
Variable get_text : str -> Result nintendo.page.
Variable fuel : nat.



End SearchPhase.


